(** * back-to-school: a one-dimensional cellular automaton and its classifier

    A shallow embedding of [back-to-school.py] (Python 2).  A line of the
    game is a Python string; it is modelled as a [list ascii], and every
    index and length is a Python integer, modelled in [Z].  The Python
    operations the program relies on (negative indices, clamped slices,
    [str * int] with a negative count, [strip]) are written out in
    [Module Py]; an uncaught IndexError is an outcome of its own.

    The methods of [GameState] run in a small state monad over the object
    and the standard output.  The [while] loop of [play] takes fuel; the
    theorems show that 99 passes are enough.  [playLine] is what [play] does
    with one validated line; [playFile] is [play] on the lines the file
    iterator yields, with its checks and its two exits.  Opening the file is
    not modelled. *)

From Stdlib Require Import ZArith Ascii String Lia DecimalString.
From stdpp Require Import base list strings.

Local Open Scope Z_scope.

(** ** Python primitives *)

Module Py.

Definition len {A} (l : list A) : Z := Z.of_nat (length l).

(** A slice bound: a negative bound counts from the end, and the result is
    clamped to [0 .. len]. *)
Definition clamp (n i : Z) : Z :=
  if i <? 0 then Z.max 0 (i + n) else Z.min i n.

(** [l[lo:hi]]; [None] is an omitted bound. *)
Definition slice {A} (l : list A) (lo hi : option Z) : list A :=
  let n := len l in
  let a := from_option (clamp n) 0 lo in
  let b := from_option (clamp n) n hi in
  take (Z.to_nat (b - a)) (drop (Z.to_nat a) l).

(** [l[i]]: [None] stands for the IndexError Python raises. *)
Definition getitem {A} (l : list A) (i : Z) : option A :=
  let n := len l in
  if (0 <=? i) && (i <? n) then l !! Z.to_nat i
  else if (- n <=? i) && (i <? 0) then l !! Z.to_nat (i + n)
  else None.

(** [l[i] = v] on a Python list; [None] is the IndexError. *)
Definition setitem {A} (l : list A) (i : Z) (v : A) : option (list A) :=
  let n := len l in
  if (0 <=? i) && (i <? n) then Some (<[Z.to_nat i := v]> l)
  else if (- n <=? i) && (i <? 0) then Some (<[Z.to_nat (i + n) := v]> l)
  else None.

(** [range(a, b)] *)
Definition range (a b : Z) : list Z :=
  (fun k => a + Z.of_nat k) <$> seq 0 (Z.to_nat (b - a)).

(** [[c] * n] and [c * n] for a one-character string [c]: empty when
    [n <= 0]. *)
Definition mul {A} (c : A) (n : Z) : list A := replicate (Z.to_nat n) c.

(** [s.count(c)] for a one-character string [c]. *)
Fixpoint count (c : ascii) (s : list ascii) : Z :=
  match s with
  | [] => 0
  | x :: s' => (if Ascii.eqb x c then 1 else 0) + count c s'
  end.

(** [c.isspace()] for the code points below 256. *)
Definition isspace (c : ascii) : bool :=
  let n := N_of_ascii c in
  ((9 <=? n) && (n <=? 13) || (28 <=? n) && (n <=? 31) || (n =? 32)
   || (n =? 133) || (n =? 160))%N.

Fixpoint drop_while {A} (p : A -> bool) (l : list A) : list A :=
  match l with
  | [] => []
  | x :: l' => if p x then drop_while p l' else l
  end.

Definition lstrip (s : list ascii) : list ascii := drop_while isspace s.
Definition rstrip (s : list ascii) : list ascii :=
  reverse (drop_while isspace (reverse s)).
Definition strip (s : list ascii) : list ascii := rstrip (lstrip s).

(** [s.replace(a, b)] for one-character strings [a] and [b]. *)
Definition replace (a b : ascii) (s : list ascii) : list ascii :=
  (fun c => if Ascii.eqb c a then b else c) <$> s.

End Py.

(** ** The program *)

Abbreviation line := (list ascii).

Definition EMPTY : ascii := ".".
Definition FILLED : ascii := "#".
Definition BLANK : ascii := " ".
Definition MAX_ROUNDS : Z := 100.

Definition getFirstFilledIdx (l : line) : Z :=
  Py.len l - Py.len (Py.lstrip l).

Definition getLastFilledIdx (l : line) : Z :=
  Py.len (Py.rstrip l) - 1.

Definition getBlock (pos : Z) (l : line) : line :=
  Py.slice l (Some (pos - 2)) (Some (pos + 1 + 2)).

Definition padTrimLine (l : line) : line :=
  let firstFilledIdx := getFirstFilledIdx l in
  let lfill := 3 - firstFilledIdx in
  let lastFilledIdx := getLastFilledIdx l in
  let rfill := 3 - (Py.len l - lastFilledIdx - 1) in
  let l' := Py.mul BLANK lfill ++ l ++ Py.mul BLANK rfill in
  if rfill <? 0 then Py.slice l' None (Some rfill) else l'.

(** Outcome of a computation: a value, an uncaught IndexError, or a loop
    that was cut off by its fuel. *)
Inductive outcome (A : Type) : Type :=
| Done (a : A)
| IndexError
| OutOfFuel.
Arguments Done {A} a.
Arguments IndexError {A}.
Arguments OutOfFuel {A}.

Record GameState := mkGameState { lines : list line }.

(** The state a method runs in: the object and the standard output. *)
Record world := mkWorld { game : GameState; stdout : list string }.

Definition M (A : Type) : Type := world -> outcome (A * world).

#[export] Instance M_ret : MRet M := fun A a w => Done (a, w).
#[export] Instance M_bind : MBind M := fun A B k m w =>
  match m w with
  | Done (a, w') => k a w'
  | IndexError => IndexError
  | OutOfFuel => OutOfFuel
  end.
Definition raise {A} : M A := fun _ => IndexError.
Definition lift {A} (o : option A) : M A :=
  match o with Some a => mret a | None => raise end.
Definition get_lines : M (list line) := fun w => Done (lines (game w), w).
Definition append_line (l : line) : M unit :=
  fun w => Done (tt, mkWorld (mkGameState (lines (game w) ++ [l])) (stdout w)).
Definition print (s : string) : M unit :=
  fun w => Done (tt, mkWorld (game w) (stdout w ++ [s])).

(** [GameState(firstline)] *)
Definition newGame (firstline : line) : GameState := mkGameState ([] ++ [firstline]).

Definition linesFilled : M Z := ls ← get_lines; mret (Py.len ls).

(** One pass of the body of the [for] loop of [fillNextLine]. *)
Definition fillSquare (lineAbove : line) (currLineArr : list ascii) (i : Z)
  : option (list ascii) :=
  let block := getBlock i lineAbove in
  let filled := Py.count FILLED block in
  above ← Py.getitem lineAbove i;
  if Ascii.eqb above " " then
    if (filled =? 2) || (filled =? 3) then Py.setitem currLineArr i FILLED
    else Some currLineArr
  else
    if (filled =? 3) || (filled =? 5) then Py.setitem currLineArr i FILLED
    else Some currLineArr.

Fixpoint forEach (body : list ascii -> Z -> option (list ascii))
    (idxs : list Z) (arr : list ascii) : option (list ascii) :=
  match idxs with
  | [] => Some arr
  | i :: idxs' => arr' ← body arr i; forEach body idxs' arr'
  end.

(** The indices the [for] loop of [fillNextLine] visits, in order. *)
Definition scannedIdxs (lineAbove : line) : list Z :=
  let startIdx := getFirstFilledIdx lineAbove - 1 in
  let stopIdx := getLastFilledIdx lineAbove + 1 in
  Py.range startIdx (stopIdx + 1).

(** [fillNextLine] up to and including the [join]: the new line before it is
    padded.  [currLineArr] is a Python list of one-character strings, so the
    [join] is the identity on the model. *)
Definition nextLineUnpadded (lineAbove : line) : option line :=
  let currLineArr := Py.mul BLANK (Py.len lineAbove) in
  forEach (fillSquare lineAbove) (scannedIdxs lineAbove) currLineArr.

Definition fillNextLine : M unit :=
  ls ← get_lines;
  lineAbove ← lift (Py.getitem ls (-1));
  newline ← lift (nextLineUnpadded lineAbove);
  append_line (padTrimLine newline).

(** The [for] loop of [printPattern]: the label printed at the first hit. *)
Fixpoint scanLines (lastline lastlineStripped : line) (ls : list line)
  : option string :=
  match ls with
  | [] => None
  | l :: ls' =>
      if bool_decide (lastlineStripped = []) then Some "vanishing"%string
      else if bool_decide (lastline = l) then Some "blinking"%string
      else if bool_decide (lastlineStripped = Py.strip l) then Some "gliding"%string
      else scanLines lastline lastlineStripped ls'
  end.

Definition printPattern : M bool :=
  ls ← get_lines;
  lastline ← lift (Py.getitem ls (-1));
  let lastlineStripped := Py.strip lastline in
  match scanLines lastline lastlineStripped (Py.slice ls None (Some (-1))) with
  | Some label => print label ;; mret true
  | None =>
      n ← linesFilled;
      if MAX_ROUNDS <=? n then print "other" ;; mret true
      else (mret false : M bool)
  end.

(** The [while] loop of [play]; [fuel] bounds the number of passes. *)
Fixpoint playLoop (fuel : nat) : M unit :=
  match fuel with
  | O => fun _ => OutOfFuel
  | S fuel' =>
      n ← linesFilled;
      if n <? MAX_ROUNDS then
        fillNextLine ;;
        hit ← printPattern;
        if hit : bool then mret tt else playLoop fuel'
      else (mret tt : M unit)
  end.

(** The check [play] makes on a line of the file: [^[.#]+$]. *)
Definition validLine (l : line) : bool :=
  negb (bool_decide (l = []))
  && forallb (fun c => Ascii.eqb c EMPTY || Ascii.eqb c FILLED) l.

(** What [play] does with one validated line of the file. *)
Definition session (firstline : line) (fuel : nat) : outcome (unit * world) :=
  playLoop fuel (mkWorld (newGame firstline) []).

Definition playLine (l : line) (fuel : nat) : outcome (unit * world) :=
  let l1 := Py.replace EMPTY " " l in
  let l2 := padTrimLine l1 in
  session l2 fuel.

Definition row (s : string) : line := list_ascii_of_string s.

(** ** The specification's vocabulary *)

(** Length of the longest prefix (suffix) whose elements satisfy [p]. *)
Fixpoint leadRun {A} (p : A -> bool) (l : list A) : nat :=
  match l with
  | [] => O
  | x :: l' => if p x then S (leadRun p l') else O
  end.

Definition trailRun {A} (p : A -> bool) (l : list A) : nat :=
  leadRun p (reverse l).

Definition isEmptyCell (c : ascii) : bool := Ascii.eqb c " ".
Definition isFilledCell (c : ascii) : bool := Ascii.eqb c "#".

(** A row is a line whose cells are all Empty or Filled. *)
Definition isRow (r : line) : bool :=
  forallb (fun c => isEmptyCell c || isFilledCell c) r.

Definition entirelyEmpty (r : line) : bool := forallb isEmptyCell r.
Definition hasFilled (r : line) : bool := existsb isFilledCell r.

(** Number of Empty cells before the first Filled cell, after the last one. *)
Definition leadingEmpty (r : line) : nat := leadRun isEmptyCell r.
Definition trailingEmpty (r : line) : nat := trailRun isEmptyCell r.

(** The padding invariant: at least 3 Empty cells before the first Filled
    cell and exactly 3 after the last one, or an entirely Empty row. *)
Definition paddingInvariant (r : line) : bool :=
  isRow r
  && (entirelyEmpty r
      || (3 <=? Z.of_nat (leadingEmpty r)) && (Z.of_nat (trailingEmpty r) =? 3)).

(** The cell at index [i] of a row that logically extends with Empty cells
    on both sides. *)
Definition cell (r : line) (i : Z) : ascii :=
  if 0 <=? i then default " "%char (r !! Z.to_nat i) else " "%char.

Definition firstFilled (r : line) : Z := Z.of_nat (leadingEmpty r).
Definition lastFilled (r : line) : Z := Py.len r - Z.of_nat (trailingEmpty r) - 1.

(** Number of Filled cells among the cells at offsets -2 .. +2 of [i]. *)
Definition filledAround (r : line) (i : Z) : Z :=
  Z.b2z (isFilledCell (cell r (i - 2))) + Z.b2z (isFilledCell (cell r (i - 1)))
  + Z.b2z (isFilledCell (cell r i))
  + Z.b2z (isFilledCell (cell r (i + 1))) + Z.b2z (isFilledCell (cell r (i + 2))).

(** The derivation rule at index [i] of the previous row. *)
Definition ruleFills (r : line) (i : Z) : bool :=
  isEmptyCell (cell r i) && ((filledAround r i =? 2) || (filledAround r i =? 3))
  || isFilledCell (cell r i) && ((filledAround r i =? 3) || (filledAround r i =? 5)).

Definition inScanRange (r : line) (i : Z) : bool :=
  (firstFilled r - 1 <=? i) && (i <=? lastFilled r + 1).

(** Every index the loop of [fillNextLine] visits has its whole block inside
    the row above, and is an index of the buffer the loop writes to. *)
Definition blocksInside (r : line) : Prop :=
  forall i, i ∈ scannedIdxs r ->
    0 <= i - 2 /\ i + 2 < Py.len r /\ Py.len (getBlock i r) = 5
    /\ 0 <= i < Py.len (Py.mul BLANK (Py.len r)).

(** The world after a line is appended to the history, after a string is
    printed. *)
Definition withLine (w : world) (l : line) : world :=
  mkWorld (mkGameState (lines (game w) ++ [l])) (stdout w).

Definition withOutput (w : world) (s : string) : world :=
  mkWorld (game w) (stdout w ++ [s]).

(** The strings the program prints as labels. *)
Definition labels : list string :=
  ["vanishing"; "blinking"; "gliding"; "other"]%string.

Inductive Label := Vanishing | Blinking | Gliding | Other.

(** The string the program prints for a label. *)
Definition labelText (L : Label) : string :=
  match L with
  | Vanishing => "vanishing"
  | Blinking => "blinking"
  | Gliding => "gliding"
  | Other => "other"
  end.

(** A row without its leading and trailing Empty cells. *)
Definition stripEmpty (r : line) : line :=
  reverse (Py.drop_while isEmptyCell (reverse (Py.drop_while isEmptyCell r))).

(** The three checks of the last row against one prior row, in the order
    Vanishing, Blinking, Gliding. *)
Definition checkPrior (lastl prior : line) : option Label :=
  if bool_decide (stripEmpty lastl = []) then Some Vanishing
  else if bool_decide (lastl = prior) then Some Blinking
  else if bool_decide (stripEmpty lastl = stripEmpty prior) then Some Gliding
  else None.

(** ** Reading the file *)

Definition MAX_LINE_LEN : Z := 1024 * 10.

Definition NEWLINE : ascii := "010".
Definition QUOTE : ascii := "034".

(** [s.rstrip(c)] for a one-character string [c]. *)
Definition rstripChar (c : ascii) (s : line) : line :=
  reverse (Py.drop_while (fun x => Ascii.eqb x c) (reverse s)).

(** [re.match("^[.#]+$", l)]: one or more of the two symbols from the start
    of the string; [$] matches at the end of the string and also just before
    a newline that ends it. *)
Definition reMatch (l : line) : bool :=
  validLine l
  || match reverse l with
     | c :: rest => Ascii.eqb c NEWLINE && validLine (reverse rest)
     | [] => false
     end.

(** The two messages [play] writes to the standard error. *)
Definition tooLongMsg : string :=
  "ERROR: file contains lines longer than "
  +:+ NilZero.string_of_int (Z.to_int MAX_LINE_LEN)
  +:+ " characters" +:+ String NEWLINE "".

Definition unexpectedMsg (l : line) : string :=
  "ERROR: unexpected characters: " +:+ String QUOTE ""
  +:+ string_of_list_ascii l +:+ String QUOTE "" +:+ String NEWLINE "".

(** How [play] ends: it returns, [sys.exit] is called, an IndexError
    escapes, or a [while] loop was cut off by its fuel.  [out] and [err] are
    what was written to the standard output and to the standard error. *)
Inductive fileOutcome : Type :=
| Finished (out : list string)
| Exited (status : Z) (out err : list string)
| Uncaught (out : list string)
| Stalled.

(** [play], on the lines the file iterator yields (each with the newline
    that ends it, when it has one); [out] is the standard output so far and
    [fuel] bounds the passes of the [while] loop of each line. *)
Fixpoint playFile (fuel : nat) (file : list line) (out : list string)
  : fileOutcome :=
  match file with
  | [] => Finished out
  | l :: file' =>
      if bool_decide (Py.rstrip l = []) then playFile fuel file' out
      else if MAX_LINE_LEN <? Py.len l then Exited 1 out [tooLongMsg]
      else
        let l0 := rstripChar NEWLINE l in
        if negb (reMatch l0) then Exited 1 out [unexpectedMsg l0]
        else
          let l1 := Py.replace EMPTY " " l0 in
          let l2 := padTrimLine l1 in
          match playLoop fuel (mkWorld (newGame l2) out) with
          | Done (_, w) => playFile fuel file' (stdout w)
          | IndexError => Uncaught out
          | OutOfFuel => Stalled
          end
  end.

(** A row as the program stores it: it keeps the padding invariant and has
    at least 3 cells. *)
Definition storedRow (r : line) : bool :=
  paddingInvariant r && (3 <=? Py.len r).

(** A line of the file that [play] skips, and one that it accepts. *)
Definition skippedLine (l : line) : bool := bool_decide (Py.rstrip l = []).

Definition acceptedLine (l : line) : bool :=
  negb (skippedLine l) && (Py.len l <=? MAX_LINE_LEN)
  && validLine (rstripChar NEWLINE l).

(** The message for a line that [play] rejects. *)
Definition rejectMsg (l : line) : string :=
  if MAX_LINE_LEN <? Py.len l then tooLongMsg
  else unexpectedMsg (rstripChar NEWLINE l).

(** ** Runs of a predicate at the two ends of a list *)

Section Runs.
Context {A : Type} (p : A -> bool).

Lemma leadRun_le (l : list A) : (leadRun p l <= length l)%nat.
Proof. induction l as [|x l IH]; simpl; [lia|]. destruct (p x); simpl; lia. Qed.

Lemma drop_while_leadRun (l : list A) :
  Py.drop_while p l = drop (leadRun p l) l.
Proof. induction l as [|x l IH]; simpl; [done|]. by destruct (p x). Qed.

Lemma leadRun_all (l : list A) :
  forallb p l = true <-> leadRun p l = length l.
Proof.
  induction l as [|x l IH]; simpl; [done|].
  destruct (p x); simpl; [|split; [done|lia]].
  rewrite IH. lia.
Qed.

Lemma leadRun_take_all (l : list A) : forallb p (take (leadRun p l) l) = true.
Proof. induction l as [|x l IH]; simpl; [done|]. destruct (p x) eqn:E; simpl; [|done]. by rewrite E. Qed.

Lemma leadRun_app_all (pre l : list A) :
  forallb p pre = true -> leadRun p (pre ++ l) = (length pre + leadRun p l)%nat.
Proof.
  induction pre as [|x pre IH]; simpl; [done|].
  destruct (p x); simpl; [|done]. intros H. by rewrite IH.
Qed.

Lemma leadRun_app_stop (l post : list A) :
  (leadRun p l < length l)%nat -> leadRun p (l ++ post) = leadRun p l.
Proof.
  induction l as [|x l IH]; simpl; [lia|].
  destruct (p x); [|done]. intros H. rewrite IH; [done|lia].
Qed.

Lemma leadRun_drop (j : nat) (l : list A) :
  (j <= leadRun p l)%nat -> leadRun p (drop j l) = (leadRun p l - j)%nat.
Proof.
  revert l. induction j as [|j IH]; intros l H; [rewrite drop_0; lia|].
  destruct l as [|x l]; simpl in *; [done|].
  destruct (p x); [|lia]. apply IH. lia.
Qed.

Lemma leadRun_take (k : nat) (l : list A) :
  (leadRun p l < k)%nat -> leadRun p (take k l) = leadRun p l.
Proof.
  revert l. induction k as [|k IH]; intros l H; [lia|].
  destruct l as [|x l]; simpl in *; [done|].
  destruct (p x); [|done]. rewrite IH; [done|lia].
Qed.

Lemma leadRun_mid_le (pre : list A) (c : A) (post : list A) :
  p c = false -> (leadRun p (pre ++ c :: post) <= length pre)%nat.
Proof.
  intros Hc. induction pre as [|x pre IH]; simpl; [rewrite Hc; lia|].
  destruct (p x); lia.
Qed.

Lemma leadRun_stop (l : list A) :
  (leadRun p l < length l)%nat ->
  exists c post, p c = false /\ l = take (leadRun p l) l ++ c :: post.
Proof.
  induction l as [|x l IH]; simpl; [lia|].
  destruct (p x) eqn:E; simpl.
  - intros H. destruct IH as (c & post & Hc & Hl); [lia|].
    exists c, post. split; [done|]. by rewrite <- Hl.
  - intros _. by exists x, l.
Qed.

Lemma trailRun_le (l : list A) : (trailRun p l <= length l)%nat.
Proof. unfold trailRun. rewrite <- (length_reverse l). apply leadRun_le. Qed.

(** A list with an element that fails [p] has disjoint runs at its ends. *)
Lemma runs_disjoint (l : list A) :
  (leadRun p l < length l)%nat ->
  (leadRun p l + trailRun p l < length l)%nat.
Proof.
  intros H. destruct (leadRun_stop l H) as (c & post & Hc & Hl).
  unfold trailRun. rewrite Hl at 2.
  rewrite reverse_app, reverse_cons, <- app_assoc. simpl.
  pose proof (leadRun_mid_le (reverse post) c (reverse (take (leadRun p l) l)) Hc) as Hle.
  rewrite length_reverse in Hle.
  assert (length l = (leadRun p l + S (length post))%nat) as Hlen.
  { rewrite Hl at 1. rewrite length_app, length_take. simpl.
    pose proof (leadRun_le l). lia. }
  lia.
Qed.

Lemma forallb_reverse (l : list A) : forallb p (reverse l) = forallb p l.
Proof.
  induction l as [|x l IH]; [done|].
  rewrite reverse_cons, forallb_app, IH. simpl.
  destruct (p x), (forallb p l); done.
Qed.

Lemma trailRun_all (l : list A) :
  forallb p l = true <-> trailRun p l = length l.
Proof.
  unfold trailRun.
  rewrite <- (length_reverse l), <- leadRun_all, forallb_reverse. done.
Qed.

Lemma trailRun_lt (l : list A) :
  (leadRun p l < length l)%nat <-> (trailRun p l < length l)%nat.
Proof.
  pose proof (leadRun_le l). pose proof (trailRun_le l).
  pose proof (leadRun_all l). pose proof (trailRun_all l).
  destruct (forallb p l); intuition lia.
Qed.

End Runs.

(** ** padTrimLine *)

Section Padding.

Lemma len_nonneg {A} (l : list A) : 0 <= Py.len l.
Proof. unfold Py.len. lia. Qed.

Lemma isspace_blank : Py.isspace BLANK = true.
Proof. reflexivity. Qed.

Lemma forallb_replicate {A} (p : A -> bool) (n : nat) (x : A) :
  p x = true -> forallb p (replicate n x) = true.
Proof. intros H. induction n as [|n IH]; simpl; [done|]. by rewrite H. Qed.

Lemma getFirstFilledIdx_run (l : line) :
  getFirstFilledIdx l = Z.of_nat (leadRun Py.isspace l).
Proof.
  unfold getFirstFilledIdx, Py.lstrip, Py.len.
  rewrite drop_while_leadRun, length_drop.
  pose proof (leadRun_le Py.isspace l). lia.
Qed.

Lemma getLastFilledIdx_run (l : line) :
  getLastFilledIdx l = Py.len l - Z.of_nat (trailRun Py.isspace l) - 1.
Proof.
  unfold getLastFilledIdx, Py.rstrip, Py.len.
  rewrite length_reverse, drop_while_leadRun, length_drop, length_reverse.
  pose proof (trailRun_le Py.isspace l). unfold trailRun in *. lia.
Qed.

(** The padded line, with the Python arithmetic resolved. *)
Lemma padTrimLine_eq (l : line) :
  let a := leadRun Py.isspace l in
  let t := trailRun Py.isspace l in
  padTrimLine l =
    replicate (3 - a) BLANK
      ++ (if (3 <? t)%nat then take (length l - (t - 3)) l
          else l ++ replicate (3 - t) BLANK).
Proof.
  intros a t. unfold padTrimLine.
  rewrite getLastFilledIdx_run, getFirstFilledIdx_run. fold a t.
  pose proof (trailRun_le Py.isspace l) as Ht. fold t in Ht.
  replace (3 - (Py.len l - (Py.len l - Z.of_nat t - 1) - 1)) with (3 - Z.of_nat t) by lia.
  unfold Py.mul.
  replace (Z.to_nat (3 - Z.of_nat a)) with (3 - a)%nat by lia.
  replace (Z.to_nat (3 - Z.of_nat t)) with (3 - t)%nat by lia.
  destruct (Nat.ltb_spec 3 t) as [H3|H3].
  - replace (3 - Z.of_nat t <? 0) with true by (symmetry; apply Z.ltb_lt; lia).
    replace (3 - t)%nat with O by lia. simpl replicate. rewrite app_nil_r.
    unfold Py.slice, Py.clamp, Py.len. simpl from_option.
    replace (3 - Z.of_nat t <? 0) with true by (symmetry; apply Z.ltb_lt; lia).
    rewrite drop_0, length_app, length_replicate.
    rewrite take_app_ge by (rewrite length_replicate; lia).
    f_equal. f_equal. rewrite length_replicate. lia.
  - replace (3 - Z.of_nat t <? 0) with false by (symmetry; apply Z.ltb_ge; lia).
    done.
Qed.

Lemma padTrimLine_length (l : line) : 3 <= Py.len (padTrimLine l).
Proof.
  rewrite padTrimLine_eq. unfold Py.len.
  pose proof (trailRun_le Py.isspace l) as Ht.
  rewrite length_app, length_replicate.
  destruct (Nat.ltb_spec 3 (trailRun Py.isspace l)).
  - rewrite length_take. lia.
  - rewrite length_app, length_replicate. lia.
Qed.

(** The runs of blanks around a padded line that has some content. *)
Lemma padTrimLine_runs (l : line) :
  (leadRun Py.isspace l < length l)%nat ->
  leadRun Py.isspace (padTrimLine l) = Nat.max 3 (leadRun Py.isspace l)
  /\ trailRun Py.isspace (padTrimLine l) = 3%nat
  /\ (leadRun Py.isspace (padTrimLine l) < length (padTrimLine l))%nat.
Proof.
  intros Hc. rewrite padTrimLine_eq.
  set (a := leadRun Py.isspace l) in *.
  set (t := trailRun Py.isspace l).
  pose proof (runs_disjoint Py.isspace l Hc) as Hd. fold a t in Hd.
  set (X := if (3 <? t)%nat then take (length l - (t - 3)) l
            else l ++ replicate (3 - t) BLANK).
  assert (leadRun Py.isspace X = a /\ leadRun Py.isspace (reverse X) = 3%nat
          /\ (a + 3 < length X)%nat) as (HX1 & HX2 & HX3).
  { subst X. destruct (Nat.ltb_spec 3 t) as [H3|H3].
    - split; [apply leadRun_take; fold a; lia|]. split.
      + rewrite reverse_take. fold (trailRun Py.isspace l) in *.
        rewrite leadRun_drop; fold (trailRun Py.isspace l); fold t; lia.
      + rewrite length_take. lia.
    - split; [by apply leadRun_app_stop|]. split.
      + rewrite reverse_app, reverse_replicate.
        rewrite leadRun_app_all by (apply forallb_replicate, isspace_blank).
        rewrite length_replicate. fold (trailRun Py.isspace l). fold t. lia.
      + rewrite length_app, length_replicate. lia. }
  assert (forallb Py.isspace (replicate (3 - a) BLANK) = true) as HB
    by apply forallb_replicate, isspace_blank.
  split; [|split].
  - rewrite leadRun_app_all, length_replicate, HX1 by done. lia.
  - unfold trailRun. rewrite reverse_app.
    rewrite leadRun_app_stop; [done|]. rewrite length_reverse. lia.
  - rewrite leadRun_app_all, length_app, length_replicate, HX1 by done. lia.
Qed.

Lemma padTrimLine_padded (l : line) :
  (3 <= leadRun Py.isspace l)%nat -> trailRun Py.isspace l = 3%nat ->
  padTrimLine l = l.
Proof.
  intros Ha Ht. rewrite padTrimLine_eq, Ht.
  replace (3 - leadRun Py.isspace l)%nat with O by lia.
  simpl. apply app_nil_r.
Qed.

Lemma leadRun_has_content (l : line) :
  FILLED ∈ l -> (leadRun Py.isspace l < length l)%nat.
Proof.
  intros Hin. pose proof (leadRun_le Py.isspace l) as Hle.
  destruct (decide (leadRun Py.isspace l = length l)) as [E|]; [|lia].
  apply leadRun_all in E. rewrite forallb_forall in E.
  apply list_elem_of_In, E in Hin. discriminate Hin.
Qed.

End Padding.

(** ** Rows: lines of Empty and Filled cells *)

Section Rows.

Lemma leadRun_ext {A} (p q : A -> bool) (l : list A) :
  (forall x, In x l -> p x = q x) -> leadRun p l = leadRun q l.
Proof.
  induction l as [|x l IH]; simpl; [done|]. intros H.
  rewrite (H x) by auto. destruct (q x); [|done]. f_equal. apply IH. auto.
Qed.

Lemma cell_cases (c : ascii) :
  isEmptyCell c || isFilledCell c = true ->
  (c = BLANK /\ Py.isspace c = true /\ isEmptyCell c = true /\ isFilledCell c = false)
  \/ (c = FILLED /\ Py.isspace c = false /\ isEmptyCell c = false /\ isFilledCell c = true).
Proof.
  unfold isEmptyCell, isFilledCell. intros H. apply orb_true_iff in H.
  destruct H as [H|H]; apply Ascii.eqb_eq in H; subst c; [left|right]; done.
Qed.

Lemma isRow_In (r : line) (c : ascii) :
  isRow r = true -> In c r -> isEmptyCell c || isFilledCell c = true.
Proof. unfold isRow. rewrite forallb_forall. auto. Qed.

Lemma isRow_space (r : line) (c : ascii) :
  isRow r = true -> In c r -> Py.isspace c = isEmptyCell c.
Proof.
  intros Hr Hc. destruct (cell_cases c (isRow_In r c Hr Hc)) as [H|H];
    destruct H as (_ & -> & -> & _); done.
Qed.

Lemma isRow_reverse (r : line) : isRow (reverse r) = isRow r.
Proof. apply forallb_reverse. Qed.

Lemma isRow_leadRun (r : line) :
  isRow r = true -> leadRun Py.isspace r = leadingEmpty r.
Proof. intros Hr. apply leadRun_ext. intros c. apply isRow_space, Hr. Qed.

Lemma isRow_trailRun (r : line) :
  isRow r = true -> trailRun Py.isspace r = trailingEmpty r.
Proof.
  intros Hr. apply leadRun_ext. intros c. apply isRow_space.
  by rewrite isRow_reverse.
Qed.

Lemma isRow_app (r1 r2 : line) : isRow (r1 ++ r2) = isRow r1 && isRow r2.
Proof. apply forallb_app. Qed.

Lemma isRow_blanks (n : nat) : isRow (replicate n BLANK) = true.
Proof. by apply forallb_replicate. Qed.

Lemma forallb_take {A} (p : A -> bool) (k : nat) (l : list A) :
  forallb p l = true -> forallb p (take k l) = true.
Proof.
  revert l. induction k as [|k IH]; intros [|x l]; simpl; try done.
  intros H. apply andb_true_iff in H as [-> Hl]. by apply IH.
Qed.

Lemma isRow_padTrimLine (l : line) :
  isRow l = true -> isRow (padTrimLine l) = true.
Proof.
  intros Hl. rewrite padTrimLine_eq, isRow_app, isRow_blanks. simpl.
  destruct (_ <? _)%nat; [by apply forallb_take|].
  by rewrite isRow_app, Hl, isRow_blanks.
Qed.

Lemma entirelyEmpty_padTrimLine (l : line) :
  entirelyEmpty l = true -> entirelyEmpty (padTrimLine l) = true.
Proof.
  intros Hl. rewrite padTrimLine_eq. unfold entirelyEmpty in *.
  rewrite forallb_app, forallb_replicate by done. simpl.
  destruct (_ <? _)%nat; [by apply forallb_take|].
  by rewrite forallb_app, Hl, forallb_replicate.
Qed.

Lemma entirelyEmpty_leadRun (r : line) :
  entirelyEmpty r = true <-> leadingEmpty r = length r.
Proof. apply leadRun_all. Qed.

Lemma entirelyEmpty_isRow (r : line) : entirelyEmpty r = true -> isRow r = true.
Proof.
  unfold entirelyEmpty, isRow. rewrite !forallb_forall.
  intros H c Hc. by rewrite (H c Hc).
Qed.

Lemma entirelyEmpty_blanks (r : line) :
  entirelyEmpty r = true -> r = replicate (length r) BLANK.
Proof.
  induction r as [|c r IH]; simpl; [done|].
  intros H. apply andb_true_iff in H as [Hc Hr].
  apply Ascii.eqb_eq in Hc. subst c. f_equal. by apply IH.
Qed.

Lemma not_entirelyEmpty (r : line) :
  entirelyEmpty r = false -> (leadingEmpty r < length r)%nat.
Proof.
  intros H. pose proof (leadRun_le isEmptyCell r) as Hle.
  destruct (decide (leadingEmpty r = length r)) as [E|]; [|unfold leadingEmpty in *; lia].
  apply entirelyEmpty_leadRun in E. congruence.
Qed.

Lemma hasFilled_not_empty (r : line) :
  isRow r = true -> hasFilled r = negb (entirelyEmpty r).
Proof.
  induction r as [|c r IH]; simpl; [done|].
  intros H. apply andb_true_iff in H as [Hc Hr]. rewrite IH by done.
  destruct (cell_cases c Hc) as [H|H]; destruct H as (_ & _ & -> & ->); done.
Qed.

(** Every line that [padTrimLine] returns for a row keeps the padding
    invariant. *)
Lemma padTrimLine_invariant (l : line) :
  isRow l = true -> paddingInvariant (padTrimLine l) = true.
Proof.
  intros Hl. unfold paddingInvariant.
  pose proof (isRow_padTrimLine l Hl) as HR. rewrite HR. simpl.
  destruct (entirelyEmpty l) eqn:E.
  - by rewrite entirelyEmpty_padTrimLine.
  - apply not_entirelyEmpty in E. rewrite <- isRow_leadRun in E by done.
    destruct (padTrimLine_runs l E) as (H1 & H2 & _).
    rewrite <- isRow_leadRun, <- isRow_trailRun, H1, H2 by done.
    apply orb_true_iff. right. apply andb_true_iff. split.
    + apply Z.leb_le. lia.
    + apply Z.eqb_eq. lia.
Qed.

End Rows.

(** ** The derivation of the next line *)

Section Derivation.

Lemma lookup_cell (r : line) (i : Z) :
  0 <= i < Py.len r -> r !! Z.to_nat i = Some (cell r i).
Proof.
  unfold Py.len, cell. intros H.
  replace (0 <=? i) with true by (symmetry; apply Z.leb_le; lia).
  destruct (r !! Z.to_nat i) as [c|] eqn:E; [done|].
  apply lookup_ge_None in E. lia.
Qed.

Lemma cell_isRow (r : line) (i : Z) :
  isRow r = true -> isEmptyCell (cell r i) || isFilledCell (cell r i) = true.
Proof.
  intros Hr. unfold cell. destruct (0 <=? i); [|done].
  destruct (r !! Z.to_nat i) as [c|] eqn:E; [|done]. simpl.
  apply (isRow_In r c Hr), list_elem_of_In, list_elem_of_lookup. eauto.
Qed.

Lemma getitem_in {A} (l : list A) (i : Z) :
  0 <= i < Py.len l -> Py.getitem l i = l !! Z.to_nat i.
Proof.
  intros H. unfold Py.getitem.
  replace (0 <=? i) with true by (symmetry; apply Z.leb_le; lia).
  replace (i <? Py.len l) with true by (symmetry; apply Z.ltb_lt; lia).
  done.
Qed.

Lemma setitem_in {A} (l : list A) (i : Z) (v : A) :
  0 <= i < Py.len l -> Py.setitem l i v = Some (<[Z.to_nat i := v]> l).
Proof.
  intros H. unfold Py.setitem.
  replace (0 <=? i) with true by (symmetry; apply Z.leb_le; lia).
  replace (i <? Py.len l) with true by (symmetry; apply Z.ltb_lt; lia).
  done.
Qed.

Lemma getitem_last {A} (l : list A) (x : A) : Py.getitem (l ++ [x]) (-1) = Some x.
Proof.
  unfold Py.getitem, Py.len. rewrite length_app. simpl.
  replace (- Z.of_nat (length l + 1) <=? -1) with true by (symmetry; apply Z.leb_le; lia).
  simpl. replace (Z.to_nat (-1 + Z.of_nat (length l + 1))) with (length l) by lia.
  by rewrite lookup_app_r, Nat.sub_diag.
Qed.

Lemma slice_init {A} (l : list A) (x : A) :
  Py.slice (l ++ [x]) None (Some (-1)) = l.
Proof.
  unfold Py.slice, Py.clamp, Py.len. simpl. rewrite length_app. simpl.
  rewrite drop_0, take_app_le by lia. apply take_ge. lia.
Qed.

(** Inside the line, a block is the five cells around its centre. *)
Lemma getBlock_in (r : line) (i : Z) :
  0 <= i - 2 -> i + 2 < Py.len r ->
  getBlock i r = [cell r (i - 2); cell r (i - 1); cell r i; cell r (i + 1); cell r (i + 2)].
Proof.
  intros Hlo Hhi. unfold getBlock, Py.slice, Py.clamp. simpl from_option.
  replace (i - 2 <? 0) with false by (symmetry; apply Z.ltb_ge; lia).
  replace (i + 1 + 2 <? 0) with false by (symmetry; apply Z.ltb_ge; lia).
  replace (Z.to_nat (Z.min (i + 1 + 2) (Py.len r) - Z.min (i - 2) (Py.len r))) with 5%nat by lia.
  replace (Z.min (i - 2) (Py.len r)) with (i - 2) by lia.
  set (k := Z.to_nat (i - 2)).
  rewrite (drop_S r (cell r (i - 2)) k) by (apply lookup_cell; lia).
  rewrite (drop_S r (cell r (i - 1)) (S k))
    by (replace (S k) with (Z.to_nat (i - 1)) by lia; apply lookup_cell; lia).
  rewrite (drop_S r (cell r i) (S (S k)))
    by (replace (S (S k)) with (Z.to_nat i) by lia; apply lookup_cell; lia).
  rewrite (drop_S r (cell r (i + 1)) (S (S (S k))))
    by (replace (S (S (S k))) with (Z.to_nat (i + 1)) by lia; apply lookup_cell; lia).
  rewrite (drop_S r (cell r (i + 2)) (S (S (S (S k)))))
    by (replace (S (S (S (S k)))) with (Z.to_nat (i + 2)) by lia; apply lookup_cell; lia).
  done.
Qed.

Lemma count_block (r : line) (i : Z) :
  Py.count FILLED [cell r (i - 2); cell r (i - 1); cell r i; cell r (i + 1); cell r (i + 2)]
  = filledAround r i.
Proof.
  unfold filledAround, isFilledCell, FILLED. simpl.
  repeat match goal with |- context [Ascii.eqb ?c "#"] => destruct (Ascii.eqb c "#") end;
    reflexivity.
Qed.

(** One pass of the loop at an index whose block lies inside the row. *)
Lemma fillSquare_in (r : line) (cur : list ascii) (i : Z) :
  isRow r = true -> 0 <= i - 2 -> i + 2 < Py.len r -> Py.len cur = Py.len r ->
  fillSquare r cur i
  = Some (if ruleFills r i then <[Z.to_nat i := FILLED]> cur else cur).
Proof.
  intros Hr Hlo Hhi Hlen. unfold fillSquare.
  rewrite getBlock_in, count_block by done.
  rewrite getitem_in, lookup_cell by lia. simpl.
  unfold ruleFills. fold (isEmptyCell (cell r i)).
  destruct (cell_cases _ (cell_isRow r i Hr)) as [H|H];
    destruct H as (_ & _ & -> & ->); simpl; rewrite ?orb_false_r;
    (destruct (_ || _); [apply setitem_in; lia|done]).
Qed.

Lemma range_nil (a b : Z) : b <= a -> Py.range a b = [].
Proof. intros H. unfold Py.range. by replace (Z.to_nat (b - a)) with O by lia. Qed.

Lemma range_cons (a b : Z) : a < b -> Py.range a b = a :: Py.range (a + 1) b.
Proof.
  intros H. unfold Py.range.
  replace (Z.to_nat (b - a)) with (S (Z.to_nat (b - (a + 1)))) by lia.
  simpl. f_equal; [lia|].
  rewrite <- fmap_S_seq, <- list_fmap_compose.
  apply list_fmap_ext. intros _ k _. simpl. lia.
Qed.

Lemma elem_of_range (a b i : Z) : i ∈ Py.range a b <-> a <= i < b.
Proof.
  unfold Py.range. rewrite list_elem_of_fmap. split.
  - intros (k & -> & Hk). apply elem_of_seq in Hk. lia.
  - intros H. exists (Z.to_nat (i - a)). split; [lia|].
    apply elem_of_seq. lia.
Qed.

(** The loop over a range of indices whose blocks all lie inside the row. *)
Lemma forEach_fill (r : line) (m : nat) :
  isRow r = true ->
  forall (a b : Z) (cur : list ascii),
    m = Z.to_nat (b - a) -> 0 <= a - 2 -> b + 1 < Py.len r ->
    Py.len cur = Py.len r ->
    exists out,
      forEach (fillSquare r) (Py.range a b) cur = Some out
      /\ Py.len out = Py.len r
      /\ forall j : Z, 0 <= j ->
           out !! Z.to_nat j
           = if (a <=? j) && (j <? b) && ruleFills r j then Some FILLED
             else cur !! Z.to_nat j.
Proof.
  intros Hr. induction m as [|m IH]; intros a b cur Hm Ha Hb Hlen.
  - rewrite range_nil by lia. exists cur. split; [done|]. split; [done|].
    intros j Hj. replace ((a <=? j) && (j <? b)) with false; [done|].
    symmetry. apply andb_false_iff. rewrite Z.leb_gt, Z.ltb_ge. lia.
  - rewrite range_cons by lia. simpl.
    rewrite fillSquare_in by (done || lia). simpl.
    set (cur' := if ruleFills r a then <[Z.to_nat a := FILLED]> cur else cur).
    assert (Py.len cur' = Py.len r) as Hlen'.
    { subst cur'. destruct (ruleFills r a); [|done].
      unfold Py.len in *. by rewrite length_insert. }
    destruct (IH (a + 1) b cur') as (out & Hout & Hl & Hj); [lia|lia|lia|done|].
    exists out. split; [done|]. split; [done|].
    intros j Hj0. rewrite Hj by done.
    destruct (Z.eq_dec j a) as [->|Hne].
    + replace (a + 1 <=? a) with false by (symmetry; apply Z.leb_gt; lia).
      replace (a <=? a) with true by (symmetry; apply Z.leb_le; lia).
      replace (a <? b) with true by (symmetry; apply Z.ltb_lt; lia).
      simpl. subst cur'. destruct (ruleFills r a); [|done].
      apply list_lookup_insert_eq. unfold Py.len in *. lia.
    + assert (cur' !! Z.to_nat j = cur !! Z.to_nat j) as ->.
      { subst cur'. destruct (ruleFills r a); [|done].
        apply list_lookup_insert_ne. lia. }
      destruct (Z.leb_spec (a + 1) j), (Z.leb_spec a j); try lia; done.
Qed.

End Derivation.

Section NextLine.

Lemma padded_content (r : line) :
  paddingInvariant r = true -> entirelyEmpty r = false ->
  isRow r = true /\ (3 <= leadingEmpty r)%nat /\ trailingEmpty r = 3%nat
  /\ (leadingEmpty r + trailingEmpty r < length r)%nat.
Proof.
  unfold paddingInvariant. intros H E. rewrite E in H. simpl in H.
  apply andb_true_iff in H as [Hr H]. apply andb_true_iff in H as [H1 H2].
  apply Z.leb_le in H1. apply Z.eqb_eq in H2.
  split; [done|]. split; [lia|]. split; [lia|].
  apply not_entirelyEmpty in E.
  unfold leadingEmpty, trailingEmpty. by apply runs_disjoint.
Qed.

Lemma scannedIdxs_row (r : line) :
  isRow r = true ->
  scannedIdxs r = Py.range (firstFilled r - 1) (lastFilled r + 1 + 1).
Proof.
  intros Hr. unfold scannedIdxs, firstFilled, lastFilled.
  by rewrite getFirstFilledIdx_run, getLastFilledIdx_run,
    isRow_leadRun, isRow_trailRun.
Qed.

Lemma inScanRange_spec (r : line) (i : Z) :
  inScanRange r i = true <-> firstFilled r - 1 <= i <= lastFilled r + 1.
Proof. unfold inScanRange. rewrite andb_true_iff, !Z.leb_le. done. Qed.

Lemma ruleFills_spec (r : line) (i : Z) :
  ruleFills r i = true <->
    (isEmptyCell (cell r i) = true /\ (filledAround r i = 2 \/ filledAround r i = 3))
    \/ (isFilledCell (cell r i) = true /\ (filledAround r i = 3 \/ filledAround r i = 5)).
Proof.
  unfold ruleFills.
  rewrite orb_true_iff, !andb_true_iff, !orb_true_iff, !Z.eqb_eq. done.
Qed.

(** The new line below a padded row that has a Filled cell. *)
Lemma nextLine_content (r : line) :
  paddingInvariant r = true -> entirelyEmpty r = false ->
  exists out,
    nextLineUnpadded r = Some out /\ Py.len out = Py.len r
    /\ forall j, 0 <= j < Py.len r ->
         cell out j = if inScanRange r j && ruleFills r j then FILLED else BLANK.
Proof.
  intros Hp He. destruct (padded_content r Hp He) as (Hr & Ha & Ht & Hd).
  unfold nextLineUnpadded. rewrite scannedIdxs_row by done.
  destruct (forEach_fill r (Z.to_nat (lastFilled r + 1 + 1 - (firstFilled r - 1))) Hr
              (firstFilled r - 1) (lastFilled r + 1 + 1)
              (Py.mul BLANK (Py.len r))) as (out & Hout & Hlen & Hj).
  - done.
  - unfold firstFilled. lia.
  - unfold lastFilled, Py.len. lia.
  - unfold Py.mul, Py.len. rewrite length_replicate. lia.
  - exists out. split; [done|]. split; [done|].
    intros j Hjr. specialize (Hj j (proj1 Hjr)).
    assert (out !! Z.to_nat j = Some (cell out j)) as Hc
      by (apply lookup_cell; lia).
    rewrite Hc in Hj. unfold inScanRange.
    replace (j <=? lastFilled r + 1) with (j <? lastFilled r + 1 + 1)
      by (destruct (Z.ltb_spec j (lastFilled r + 1 + 1)), (Z.leb_spec j (lastFilled r + 1)); lia).
    destruct (_ && ruleFills r j); [congruence|].
    unfold Py.mul in Hj. rewrite lookup_replicate_2 in Hj; [congruence|].
    unfold Py.len in *. lia.
Qed.

(** The new line below a blank row of two cells or more is blank: the loop
    visits no index at all. *)
Lemma nextLine_blank (r : line) :
  entirelyEmpty r = true -> 2 <= Py.len r ->
  scannedIdxs r = [] /\ nextLineUnpadded r = Some (replicate (length r) BLANK).
Proof.
  intros He Hn. pose proof (entirelyEmpty_isRow r He) as Hr.
  assert (scannedIdxs r = []) as Hs.
  { rewrite scannedIdxs_row by done. apply range_nil.
    unfold firstFilled, lastFilled, trailingEmpty.
    apply entirelyEmpty_leadRun in He as Hl. rewrite Hl.
    apply trailRun_all in He. rewrite He. unfold Py.len in *. lia. }
  split; [done|]. unfold nextLineUnpadded. rewrite Hs. simpl.
  unfold Py.mul, Py.len. by rewrite Nat2Z.id.
Qed.

Lemma cells_isRow (out : line) :
  (forall j, 0 <= j < Py.len out -> cell out j = FILLED \/ cell out j = BLANK) ->
  isRow out = true.
Proof.
  intros H. unfold isRow. apply forallb_forall. intros c Hc.
  apply list_elem_of_In, list_elem_of_lookup in Hc as [k Hk].
  pose proof (lookup_lt_Some _ _ _ Hk) as Hlt.
  assert (0 <= Z.of_nat k < Py.len out) as Hr by (unfold Py.len; lia).
  pose proof (lookup_cell out _ Hr) as Hc. rewrite Nat2Z.id in Hc.
  assert (cell out (Z.of_nat k) = c) as <- by congruence.
  destruct (H _ Hr) as [-> | ->]; done.
Qed.

(** On every non-empty row that keeps the padding invariant the loop of
    [fillNextLine] runs to its end and builds a row of the same length. *)
Lemma nextLine_total (r : line) :
  paddingInvariant r = true -> 1 <= Py.len r ->
  exists out,
    nextLineUnpadded r = Some out /\ Py.len out = Py.len r /\ isRow out = true.
Proof.
  intros Hp Hn. destruct (entirelyEmpty r) eqn:He.
  - destruct (Z.eq_dec (Py.len r) 1) as [H1|H1].
    + apply entirelyEmpty_blanks in He.
      replace (length r) with 1%nat in He by (unfold Py.len in H1; lia).
      subst r. by exists [BLANK].
    + destruct (nextLine_blank r He) as [_ ->]; [lia|].
      eexists. split; [done|]. split.
      * unfold Py.len. by rewrite length_replicate.
      * apply isRow_blanks.
  - destruct (nextLine_content r Hp He) as (out & Hout & Hlen & Hj).
    exists out. split; [done|]. split; [done|].
    apply cells_isRow. intros j Hjr. rewrite Hj by lia.
    destruct (_ && _); auto.
Qed.

End NextLine.

(** C1. Below a row that keeps the padding invariant and has a Filled cell,
    the line [fillNextLine] builds (before it is padded again) has the length
    of that row, and its cell at index [i] is Filled exactly when [i] lies
    between the index of the row's first Filled cell minus 1 and the index of
    its last Filled cell plus 1 and the five cells at offsets -2 .. +2 of [i]
    in the row hold 2 or 3 Filled cells when the row's cell at [i] is Empty,
    3 or 5 when it is Filled; every index outside that range is Empty. *)
Theorem derivation_rule (r : line) :
  paddingInvariant r = true -> hasFilled r = true ->
  exists out,
    nextLineUnpadded r = Some out /\ Py.len out = Py.len r
    /\ forall i, 0 <= i < Py.len r ->
         (cell out i = FILLED <->
            firstFilled r - 1 <= i <= lastFilled r + 1
            /\ ((isEmptyCell (cell r i) = true
                 /\ (filledAround r i = 2 \/ filledAround r i = 3))
                \/ (isFilledCell (cell r i) = true
                    /\ (filledAround r i = 3 \/ filledAround r i = 5))))
         /\ (~ (firstFilled r - 1 <= i <= lastFilled r + 1) -> cell out i = BLANK).
Proof.
  intros Hp Hf.
  assert (isRow r = true) as Hr
    by (unfold paddingInvariant in Hp; by apply andb_true_iff in Hp as [? _]).
  assert (entirelyEmpty r = false) as He.
  { rewrite hasFilled_not_empty in Hf by done. by destruct (entirelyEmpty r). }
  destruct (nextLine_content r Hp He) as (out & Hout & Hlen & Hj).
  exists out. split; [done|]. split; [done|].
  intros i Hi. rewrite (Hj i Hi), <- inScanRange_spec, <- ruleFills_spec.
  destruct (inScanRange r i), (ruleFills r i); simpl; split;
    try done; intuition discriminate.
Qed.

Lemma derivation_rule_witness :
  exists out,
    nextLineUnpadded (row "   ##   ") = Some out
    /\ Py.len out = 8 /\ cell out 2 = FILLED /\ cell out 3 = BLANK.
Proof.
  destruct (derivation_rule (row "   ##   ")) as (out & Hout & Hlen & Hc);
    [reflexivity | reflexivity |].
  exists out. split; [exact Hout|]. split; [exact Hlen|].
  vm_compute in Hout. injection Hout as <-. split; reflexivity.
Defined.

(** ** Index safety of the loop *)

(** C3, as stated, fails on the blank row of one cell: it keeps the padding
    invariant, the loop visits index 0, and the block read there starts at
    index -2 and holds one cell. *)
Lemma index_safety_counterexample :
  paddingInvariant (row " ") = true
  /\ 0 ∈ scannedIdxs (row " ")
  /\ getBlock 0 (row " ") = [BLANK]
  /\ ~ blocksInside (row " ").
Proof.
  split; [reflexivity|]. split; [vm_compute; left|]. split; [reflexivity|].
  intros H. destruct (H 0) as [H0 _]; [vm_compute; left|]. lia.
Qed.

(** C3, amended. On every row of two cells or more that keeps the padding
    invariant, every index [i] the loop of [fillNextLine] visits has
    [i - 2 >= 0] and [i + 2 < len], [getBlock] returns exactly 5 cells, the
    write index is inside the buffer, and the loop ends without an
    IndexError. *)
Theorem index_safety (r : line) :
  paddingInvariant r = true -> 2 <= Py.len r ->
  blocksInside r
  /\ exists out, nextLineUnpadded r = Some out /\ Py.len out = Py.len r.
Proof.
  intros Hp Hn. split.
  - intros i Hi. destruct (entirelyEmpty r) eqn:He.
    + destruct (nextLine_blank r He Hn) as [Hs _]. rewrite Hs in Hi.
      by apply elem_of_nil in Hi.
    + destruct (padded_content r Hp He) as (Hr & Ha & Ht & Hd).
      rewrite scannedIdxs_row in Hi by done. apply elem_of_range in Hi.
      unfold firstFilled, lastFilled in Hi.
      assert (0 <= i - 2 /\ i + 2 < Py.len r) as [Hlo Hhi]
        by (unfold Py.len in *; lia).
      split; [done|]. split; [done|]. split.
      * by rewrite getBlock_in.
      * unfold Py.mul, Py.len in *. rewrite length_replicate. lia.
  - destruct (nextLine_total r Hp) as (out & Hout & Hlen & _); [lia|]. eauto.
Qed.

Lemma index_safety_witness :
  blocksInside (row "   #   ")
  /\ exists out, nextLineUnpadded (row "   #   ") = Some out
                 /\ Py.len out = Py.len (row "   #   ").
Proof. apply (index_safety (row "   #   ")); [reflexivity | vm_compute; discriminate]. Defined.

(** ** The methods of GameState *)

Section Methods.

Lemma fillNextLine_run (w : world) (hist : list line) (r : line) :
  lines (game w) = hist ++ [r] ->
  fillNextLine w
  = match nextLineUnpadded r with
    | Some raw => Done (tt, withLine w (padTrimLine raw))
    | None => IndexError
    end.
Proof.
  intros Hl. unfold fillNextLine, mbind, M_bind, get_lines.
  rewrite Hl, getitem_last. simpl.
  destruct (nextLineUnpadded r); simpl; [|done].
  unfold append_line, withLine. by rewrite Hl.
Qed.

Lemma printPattern_run (w : world) (hist : list line) (r : line) :
  lines (game w) = hist ++ [r] ->
  printPattern w
  = match scanLines r (Py.strip r) hist with
    | Some label => Done (true, withOutput w label)
    | None =>
        if MAX_ROUNDS <=? Py.len (lines (game w))
        then Done (true, withOutput w "other")
        else Done (false, w)
    end.
Proof.
  intros Hl. unfold printPattern, mbind, M_bind, get_lines.
  rewrite Hl, getitem_last. simpl. rewrite slice_init.
  destruct (scanLines r (Py.strip r) hist); simpl; [done|].
  unfold linesFilled, mbind, M_bind, get_lines, mret, M_ret. rewrite Hl.
  by destruct (MAX_ROUNDS <=? _).
Qed.

Lemma scanLines_label (lastl stripped : line) (ls : list line) (label : string) :
  scanLines lastl stripped ls = Some label ->
  label = "vanishing"%string \/ label = "blinking"%string \/ label = "gliding"%string.
Proof.
  induction ls as [|l ls IH]; simpl; [done|].
  repeat case_bool_decide; intros Hs; try (injection Hs as <-; auto); auto.
Qed.

(** The row [fillNextLine] appends below a non-empty padded row. *)
Lemma fillNextLine_padded (w : world) (hist : list line) (r : line) :
  lines (game w) = hist ++ [r] ->
  paddingInvariant r = true -> 1 <= Py.len r ->
  exists raw,
    nextLineUnpadded r = Some raw /\ isRow raw = true
    /\ fillNextLine w = Done (tt, withLine w (padTrimLine raw)).
Proof.
  intros Hl Hp Hn. destruct (nextLine_total r Hp Hn) as (raw & Hraw & _ & Hr).
  exists raw. split; [done|]. split; [done|].
  by rewrite (fillNextLine_run w hist r Hl), Hraw.
Qed.

End Methods.

(** C2, as stated, fails on the empty row: it is entirely Empty, so it keeps
    the padding invariant, but [fillNextLine] raises an IndexError below it
    and appends no row. *)
Lemma padding_preservation_counterexample :
  paddingInvariant [] = true
  /\ fillNextLine (mkWorld (newGame []) []) = IndexError.
Proof. split; reflexivity. Qed.

(** C2, amended. Below every non-empty row that keeps the padding invariant,
    [fillNextLine] appends a row that keeps it too: the padded form of the
    line the loop built.  When the new row has a Filled cell, its leading
    Empty run is that of the unpadded line, raised to 3 when shorter (never
    cut), and its trailing Empty run is exactly 3. *)
Theorem padding_preservation (w : world) (r : line) :
  last (lines (game w)) = Some r ->
  paddingInvariant r = true -> 1 <= Py.len r ->
  exists raw new,
    nextLineUnpadded r = Some raw /\ new = padTrimLine raw
    /\ fillNextLine w = Done (tt, withLine w new)
    /\ paddingInvariant new = true
    /\ (hasFilled new = true ->
        leadingEmpty new = Nat.max 3 (leadingEmpty raw)
        /\ trailingEmpty new = 3%nat).
Proof.
  intros Hlast Hp Hn. apply last_Some in Hlast as [hist Hl].
  destruct (fillNextLine_padded w hist r Hl Hp Hn) as (raw & Hraw & Hr & Hf).
  exists raw, (padTrimLine raw). split; [done|]. split; [done|]. split; [done|].
  split; [by apply padTrimLine_invariant|].
  intros Hfilled. pose proof (isRow_padTrimLine raw Hr) as Hr'.
  rewrite hasFilled_not_empty in Hfilled by done.
  destruct (entirelyEmpty raw) eqn:He.
  - by rewrite entirelyEmpty_padTrimLine in Hfilled.
  - apply not_entirelyEmpty in He. rewrite <- isRow_leadRun in He by done.
    destruct (padTrimLine_runs raw He) as (H1 & H2 & _).
    by rewrite <- !isRow_leadRun, <- isRow_trailRun.
Qed.

Lemma padding_preservation_witness :
  exists raw new,
    nextLineUnpadded (row "   ##   ") = Some raw /\ new = padTrimLine raw
    /\ fillNextLine (mkWorld (newGame (row "   ##   ")) [])
       = Done (tt, withLine (mkWorld (newGame (row "   ##   ")) []) new)
    /\ paddingInvariant new = true
    /\ (hasFilled new = true ->
        leadingEmpty new = Nat.max 3 (leadingEmpty raw)
        /\ trailingEmpty new = 3%nat).
Proof.
  apply (padding_preservation (mkWorld (newGame (row "   ##   ")) []) (row "   ##   "));
    [reflexivity | reflexivity | vm_compute; discriminate].
Defined.

(** ** The loop of play *)

Section Play.

Lemma playLoop_step (fuel : nat) (w : world) :
  playLoop (S fuel) w
  = if Py.len (lines (game w)) <? MAX_ROUNDS then
      match fillNextLine w with
      | Done (_, w1) =>
          match printPattern w1 with
          | Done (hit, w2) => if hit then Done (tt, w2) else playLoop fuel w2
          | IndexError => IndexError
          | OutOfFuel => OutOfFuel
          end
      | IndexError => IndexError
      | OutOfFuel => OutOfFuel
      end
    else Done (tt, w).
Proof.
  simpl. unfold mbind, M_bind. simpl.
  destruct (Py.len (lines (game w)) <? MAX_ROUNDS); [|done].
  destruct (fillNextLine w) as [[u w1]| |]; [|done|done].
  destruct (printPattern w1) as [[[|] w2]| |]; done.
Qed.

(** From a history of fewer than 100 rows whose last row is a non-empty
    padded row, the loop ends, prints one label and only appends rows. *)
Lemma playLoop_run (fuel : nat) :
  forall (w : world) (hist : list line) (r : line),
    lines (game w) = hist ++ [r] ->
    paddingInvariant r = true -> 1 <= Py.len r ->
    Py.len (lines (game w)) < MAX_ROUNDS ->
    (Z.to_nat (MAX_ROUNDS - Py.len (lines (game w))) <= fuel)%nat ->
    exists w' label more,
      playLoop fuel w = Done (tt, w')
      /\ stdout w' = stdout w ++ [label]
      /\ In label labels
      /\ lines (game w') = lines (game w) ++ more
      /\ 1 <= Py.len more
      /\ Py.len (lines (game w')) <= MAX_ROUNDS
      /\ (label = "other"%string -> Py.len (lines (game w')) = MAX_ROUNDS).
Proof.
  induction fuel as [|fuel IH]; intros w hist r Hl Hp Hn Hlt Hfuel; [lia|].
  rewrite playLoop_step.
  replace (Py.len (lines (game w)) <? MAX_ROUNDS) with true
    by (symmetry; by apply Z.ltb_lt).
  destruct (fillNextLine_padded w hist r Hl Hp Hn) as (raw & Hraw & Hr & ->).
  set (new := padTrimLine raw). set (w1 := withLine w new).
  assert (lines (game w1) = lines (game w) ++ [new]) as Hl1 by done.
  assert (Py.len (lines (game w1)) = Py.len (lines (game w)) + 1) as Hlen1.
  { rewrite Hl1. unfold Py.len. rewrite length_app. simpl. lia. }
  rewrite (printPattern_run w1 (lines (game w)) new Hl1).
  destruct (scanLines new (Py.strip new) (lines (game w))) as [label|] eqn:Hs.
  - exists (withOutput w1 label), label, [new].
    split; [done|]. split; [done|]. split.
    { apply scanLines_label in Hs as [->| [->| ->]]; simpl; auto. }
    split; [done|]. split; [by vm_compute|].
    change (lines (game (withOutput w1 label))) with (lines (game w1)).
    split; [unfold MAX_ROUNDS in *; lia|].
    intros ->. apply scanLines_label in Hs as [?|[?|?]]; discriminate.
  - destruct (Z.leb_spec MAX_ROUNDS (Py.len (lines (game w1)))) as [Hge|Hlt1].
    + exists (withOutput w1 "other"), "other"%string, [new].
      split; [done|]. split; [done|]. split; [simpl; auto|].
      split; [done|]. split; [by vm_compute|].
      change (lines (game (withOutput w1 "other"))) with (lines (game w1)).
      unfold MAX_ROUNDS in *. lia.
    + destruct (IH w1 (lines (game w)) new Hl1) as (w' & label & more & HP & Ho & Hin & Hm & Hm1 & Hle & Hother).
      * by apply padTrimLine_invariant.
      * pose proof (padTrimLine_length raw). fold new in H. lia.
      * done.
      * unfold MAX_ROUNDS in *. lia.
      * exists w', label, ([new] ++ more).
        split; [done|]. split; [done|]. split; [done|].
        split; [by rewrite Hm, Hl1, <- app_assoc|].
        split; [unfold Py.len in *; rewrite length_app; simpl; lia|]. done.
Qed.

Lemma validLine_row (l : line) :
  validLine l = true -> isRow (Py.replace EMPTY " " l) = true.
Proof.
  unfold validLine. intros H. apply andb_true_iff in H as [_ H].
  unfold isRow, Py.replace. rewrite forallb_forall in *.
  intros c Hc. apply list_elem_of_In, list_elem_of_fmap in Hc as (c0 & -> & Hc0).
  apply list_elem_of_In, H in Hc0. apply orb_true_iff in Hc0 as [E|E];
    apply Ascii.eqb_eq in E; subst c0; done.
Qed.

(** What [play] does with a validated line, given fuel for 99 passes. *)
Lemma playLine_run (l : line) (fuel : nat) :
  validLine l = true -> (99 <= fuel)%nat ->
  exists w label more,
    playLine l fuel = Done (tt, w)
    /\ stdout w = [label]
    /\ In label labels
    /\ lines (game w) = padTrimLine (Py.replace EMPTY " " l) :: more
    /\ 1 <= Py.len more
    /\ Py.len (lines (game w)) <= MAX_ROUNDS
    /\ (label = "other"%string -> Py.len (lines (game w)) = MAX_ROUNDS).
Proof.
  intros Hv Hfuel. unfold playLine, session.
  set (l2 := padTrimLine (Py.replace EMPTY " " l)).
  destruct (playLoop_run fuel (mkWorld (newGame l2) []) [] l2)
    as (w & label & more & HP & Ho & Hin & Hm & Hm1 & Hle & Hother).
  - done.
  - apply padTrimLine_invariant. by apply validLine_row.
  - pose proof (padTrimLine_length (Py.replace EMPTY " " l)). fold l2 in H. lia.
  - by vm_compute.
  - simpl. vm_compute Z.to_nat. done.
  - exists w, label, more. done.
Qed.

End Play.

(** C4, as stated, fails on the round of the cap: counting the starting row
    as round 0, this validated line repeats no earlier row and "other" is
    printed when the history holds 100 rows, that is at round 99, not at
    round 100. *)
Lemma round_cap_counterexample :
  validLine (row "##..#.######") = true
  /\ exists w,
       playLine (row "##..#.######") 100 = Done (tt, w)
       /\ stdout w = ["other"%string]
       /\ Py.len (lines (game w)) - 1 = 99
       /\ Py.len (lines (game w)) - 1 <> 100.
Proof.
  split; [reflexivity|]. eexists. split; [vm_compute; reflexivity|].
  split; [reflexivity|]. split; [reflexivity|]. vm_compute. discriminate.
Qed.

(** C4, amended. For every validated starting line, with fuel for 99 passes
    the loop of [play] ends and prints exactly one label; counting the
    starting row as round 0, the label is "vanishing", "blinking" or
    "gliding", printed at a round from 1 to 99, or it is "other", printed at
    exactly round 99, when the history holds 100 rows. *)
Theorem round_cap_at_99 (l : line) (fuel : nat) :
  validLine l = true -> (99 <= fuel)%nat ->
  exists w label,
    playLine l fuel = Done (tt, w)
    /\ stdout w = [label]
    /\ let round := Py.len (lines (game w)) - 1 in
       (In label ["vanishing"; "blinking"; "gliding"]%string /\ 1 <= round <= 99)
       \/ (label = "other"%string /\ round = 99).
Proof.
  intros Hv Hfuel.
  destruct (playLine_run l fuel Hv Hfuel)
    as (w & label & more & HP & Ho & Hin & Hm & Hm1 & Hle & Hother).
  exists w, label. split; [done|]. split; [done|].
  assert (2 <= Py.len (lines (game w)) <= 100) as Hlen.
  { rewrite Hm in *. unfold Py.len, MAX_ROUNDS in *. simpl in *. lia. }
  simpl in Hin. destruct Hin as [<-|[<-|[<-|[<-|[]]]]].
  - left. split; [simpl; auto|lia].
  - left. split; [simpl; auto|lia].
  - left. split; [simpl; auto|lia].
  - right. split; [done|]. rewrite Hother by done. by vm_compute.
Qed.

Lemma round_cap_at_99_witness :
  exists w label,
    playLine (row "##.#") 99 = Done (tt, w) /\ stdout w = [label]
    /\ let round := Py.len (lines (game w)) - 1 in
       (In label ["vanishing"; "blinking"; "gliding"]%string /\ 1 <= round <= 99)
       \/ (label = "other"%string /\ round = 99).
Proof. apply (round_cap_at_99 (row "##.#") 99); [reflexivity | lia]. Defined.

(** The round at which the label is printed, more precisely: the history
    then holds between 2 and 100 rows, and exactly 100 when the label is
    "other" (round 99 when the initial row is round 0). *)
Lemma other_at_100_rows (l : line) (fuel : nat) :
  validLine l = true -> (99 <= fuel)%nat ->
  exists w label,
    playLine l fuel = Done (tt, w) /\ stdout w = [label]
    /\ 2 <= Py.len (lines (game w)) <= 100
    /\ (label = "other"%string -> Py.len (lines (game w)) = 100).
Proof.
  intros Hv Hfuel.
  destruct (playLine_run l fuel Hv Hfuel)
    as (w & label & more & HP & Ho & Hin & Hm & Hm1 & Hle & Hother).
  exists w, label. split; [done|]. split; [done|]. split; [|done].
  rewrite Hm in *. unfold Py.len, MAX_ROUNDS in *. simpl in *. lia.
Qed.

(** The cap is reached: this starting line repeats no earlier row within
    100 rows, and "other" is printed when the history holds 100 rows. *)
Example other_reached :
  exists w,
    playLine (row "##..#.######") 100 = Done (tt, w)
    /\ stdout w = ["other"%string]
    /\ Py.len (lines (game w)) = 100.
Proof. eexists. split; [vm_compute; reflexivity|]. split; reflexivity. Qed.

(** C9, as stated, fails on the letter case: for the starting line "#" the
    program prints "vanishing", which is none of the four strings
    Vanishing, Blinking, Gliding, Other. *)
Lemma label_rendering_counterexample :
  exists w,
    playLine (row "#") 100 = Done (tt, w)
    /\ stdout w = ["vanishing"%string]
    /\ ~ In "vanishing"%string ["Vanishing"; "Blinking"; "Gliding"; "Other"]%string.
Proof.
  eexists. split; [vm_compute; reflexivity|]. split; [reflexivity|].
  simpl. intros [H|[H|[H|[H|[]]]]]; discriminate H.
Qed.

(** C9, amended. Every label [printPattern] prints is one of the four strings
    "vanishing", "blinking", "gliding", "other", in lower case, and the
    outcome printed for a validated starting line is exactly one of them. *)
Theorem label_rendering :
  (forall w hit w', printPattern w = Done (hit, w') ->
     (hit = false /\ stdout w' = stdout w)
     \/ (hit = true /\ exists label, In label labels /\ stdout w' = stdout w ++ [label]))
  /\ (forall l fuel, validLine l = true -> (99 <= fuel)%nat ->
        exists w label,
          playLine l fuel = Done (tt, w) /\ stdout w = [label] /\ In label labels).
Proof.
  split.
  - intros w hit w' H.
    destruct (lines (game w)) as [|l0 ls] eqn:El using rev_ind.
    { unfold printPattern, mbind, M_bind, get_lines in H. rewrite El in H. done. }
    clear IHls. rewrite (printPattern_run w ls l0 El) in H.
    destruct (scanLines l0 (Py.strip l0) ls) as [label|] eqn:Hs.
    + injection H as <- <-. right. split; [done|]. exists label. split; [|done].
      apply scanLines_label in Hs as [->|[->| ->]]; simpl; auto.
    + destruct (MAX_ROUNDS <=? Py.len (lines (game w))); injection H as <- <-.
      * right. split; [done|]. exists "other"%string. split; [simpl; auto|done].
      * by left.
  - intros l fuel Hv Hfuel.
    destruct (playLine_run l fuel Hv Hfuel) as (w & label & more & HP & Ho & Hin & _).
    by exists w, label.
Qed.

Lemma label_rendering_witness :
  exists w label,
    playLine (row "###") 100 = Done (tt, w) /\ stdout w = [label] /\ In label labels.
Proof.
  apply (proj2 label_rendering (row "###") 100%nat); [reflexivity | lia].
Defined.

(** ** Rows that die out *)

Section Vanishing.

Lemma entirelyEmpty_isspace (r : line) :
  entirelyEmpty r = true -> forallb Py.isspace r = true.
Proof.
  unfold entirelyEmpty. rewrite !forallb_forall. intros H c Hc.
  apply H, Ascii.eqb_eq in Hc. by subst c.
Qed.

Lemma strip_blank (r : line) : forallb Py.isspace r = true -> Py.strip r = [].
Proof.
  intros H. unfold Py.strip, Py.lstrip. rewrite drop_while_leadRun.
  apply leadRun_all in H. rewrite H, drop_all. reflexivity.
Qed.

Lemma count_nonneg (s : line) : 0 <= Py.count FILLED s.
Proof. induction s as [|c s IH]; simpl; [lia|]. destruct (Ascii.eqb c FILLED); lia. Qed.

Lemma count_app (s1 s2 : line) :
  Py.count FILLED (s1 ++ s2) = Py.count FILLED s1 + Py.count FILLED s2.
Proof. induction s1 as [|c s1 IH]; simpl; [done|]. rewrite IH. lia. Qed.

Lemma count_space (s : line) :
  forallb Py.isspace s = true -> Py.count FILLED s = 0.
Proof.
  induction s as [|c s IH]; simpl; [done|]. intros H.
  apply andb_true_iff in H as [Hc Hs]. rewrite IH by done.
  destruct (Ascii.eqb_spec c FILLED) as [->|]; [discriminate Hc|done].
Qed.

Lemma count_take_drop (k : nat) (s : line) :
  Py.count FILLED s = Py.count FILLED (take k s) + Py.count FILLED (drop k s).
Proof. by rewrite <- count_app, take_drop. Qed.

Lemma count_getBlock_le (i : Z) (s : line) :
  Py.count FILLED (getBlock i s) <= Py.count FILLED s.
Proof.
  unfold getBlock, Py.slice.
  set (k := Z.to_nat _). set (d := Z.to_nat _).
  pose proof (count_take_drop d s). pose proof (count_take_drop k (drop d s)).
  pose proof (count_nonneg (take d s)). pose proof (count_nonneg (drop k (drop d s))).
  lia.
Qed.

Lemma leadRun_take_le {A} (p : A -> bool) (j : nat) (l : list A) :
  (j <= leadRun p l)%nat -> forallb p (take j l) = true.
Proof.
  revert l. induction j as [|j IH]; intros [|x l]; simpl; try done.
  destruct (p x); [|lia]. intros H. apply IH. lia.
Qed.

Lemma trailRun_drop_all {A} (p : A -> bool) (j : nat) (l : list A) :
  (j <= trailRun p l)%nat -> forallb p (drop (length l - j) l) = true.
Proof.
  intros H. rewrite <- forallb_reverse, reverse_drop.
  pose proof (trailRun_le p l).
  replace (length l - (length l - j))%nat with j by lia.
  by apply leadRun_take_le.
Qed.

(** Padding adds and removes blanks only. *)
Lemma count_padTrimLine (l : line) :
  Py.count FILLED (padTrimLine l) = Py.count FILLED l.
Proof.
  rewrite padTrimLine_eq, count_app.
  rewrite (count_space (replicate _ _)) by (apply forallb_replicate, isspace_blank).
  destruct (Nat.ltb_spec 3 (trailRun Py.isspace l)) as [H3|H3].
  - rewrite (count_take_drop (length l - (trailRun Py.isspace l - 3)) l) at 1.
    rewrite (count_space (drop _ _)); [lia|].
    apply trailRun_drop_all. lia.
  - rewrite count_app, (count_space (replicate _ _))
      by (apply forallb_replicate, isspace_blank). lia.
Qed.

Lemma cells_blank (out : line) :
  (forall j, 0 <= j < Py.len out -> cell out j = BLANK) ->
  entirelyEmpty out = true.
Proof.
  intros H. unfold entirelyEmpty. apply forallb_forall. intros c Hc.
  apply list_elem_of_In, list_elem_of_lookup in Hc as [k Hk].
  pose proof (lookup_lt_Some _ _ _ Hk) as Hlt.
  assert (0 <= Z.of_nat k < Py.len out) as Hr by (unfold Py.len; lia).
  pose proof (lookup_cell out _ Hr) as Hc. rewrite Nat2Z.id in Hc.
  assert (cell out (Z.of_nat k) = c) as <- by congruence.
  by rewrite (H _ Hr).
Qed.

(** Below a padded row with fewer than two Filled cells the new line is
    blank. *)
Lemma nextLine_sparse (r : line) :
  paddingInvariant r = true -> entirelyEmpty r = false ->
  Py.count FILLED r <= 1 ->
  exists raw, nextLineUnpadded r = Some raw /\ entirelyEmpty raw = true
              /\ Py.len raw = Py.len r.
Proof.
  intros Hp He Hc. destruct (nextLine_content r Hp He) as (raw & Hraw & Hlen & Hj).
  destruct (padded_content r Hp He) as (Hr & Ha & Ht & Hd).
  exists raw. split; [done|]. split; [|done].
  apply cells_blank. intros j Hjr. rewrite Hj by lia.
  destruct (inScanRange r j) eqn:Hin; [|done]. simpl.
  apply inScanRange_spec in Hin. unfold firstFilled, lastFilled in Hin.
  assert (0 <= j - 2 /\ j + 2 < Py.len r) as [Hlo Hhi] by (unfold Py.len in *; lia).
  pose proof (count_getBlock_le j r) as Hle.
  rewrite getBlock_in, count_block in Hle by done.
  destruct (ruleFills r j) eqn:Hrule; [|done].
  apply ruleFills_spec in Hrule. lia.
Qed.

Lemma entirelyEmpty_count (r : line) :
  entirelyEmpty r = true -> Py.count FILLED r = 0.
Proof. intros H. by apply count_space, entirelyEmpty_isspace. Qed.

(** A first round that derives a blank line ends the loop with the label
    "vanishing". *)
Lemma vanish_round (fuel : nat) (start raw : line) :
  nextLineUnpadded start = Some raw -> entirelyEmpty raw = true ->
  session start (S fuel)
  = Done (tt, mkWorld (mkGameState [start; padTrimLine raw]) ["vanishing"%string]).
Proof.
  intros Hraw He. unfold session. rewrite playLoop_step.
  change (Py.len (lines (game (mkWorld (newGame start) []))) <? MAX_ROUNDS) with true.
  cbv iota.
  rewrite (fillNextLine_run _ [] start) by done. rewrite Hraw.
  rewrite (printPattern_run _ [start] (padTrimLine raw)) by done.
  rewrite strip_blank
    by (by apply entirelyEmpty_isspace, entirelyEmpty_padTrimLine).
  reflexivity.
Qed.

Lemma padTrimLine_blank (r : line) :
  entirelyEmpty r = true -> 3 <= Py.len r -> padTrimLine r = replicate 3 BLANK.
Proof.
  intros He Hn. pose proof (entirelyEmpty_padTrimLine r He) as He'.
  apply entirelyEmpty_blanks in He'. rewrite He'. f_equal.
  rewrite padTrimLine_eq.
  apply entirelyEmpty_isspace in He.
  apply leadRun_all in He as Ha. apply trailRun_all in He as Ht.
  rewrite Ha, Ht, length_app, length_replicate. unfold Py.len in Hn.
  destruct (Nat.ltb_spec 3 (length r)).
  - rewrite length_take. lia.
  - rewrite length_app, length_replicate. lia.
Qed.

End Vanishing.

(** C6, as stated, fails on the starting line "...": the first derived row
    is blank and has the starting row before it, so the program prints
    "vanishing" after one round, with a history of two rows, and never
    reaches the cap. *)
Lemma empty_start_counterexample :
  validLine (row "...") = true
  /\ entirelyEmpty (Py.replace EMPTY " " (row "...")) = true
  /\ playLine (row "...") 100
     = Done (tt, mkWorld (mkGameState [row "   "; row "   "]) ["vanishing"%string]).
Proof. repeat split; vm_compute; reflexivity. Qed.

(** C6, amended. A validated starting line that is fully Empty is classified
    as "vanishing" in the first round: the history then holds the starting
    row and one blank row of 3 cells.  The Vanishing check needs an earlier
    row: on a history of one row [printPattern] prints nothing and returns
    false. *)
Theorem empty_start (l : line) (fuel : nat) :
  validLine l = true -> forallb (Ascii.eqb EMPTY) l = true -> (1 <= fuel)%nat ->
  playLine l fuel
  = Done (tt, mkWorld (mkGameState [padTrimLine (Py.replace EMPTY " " l);
                                    replicate 3 BLANK])
                ["vanishing"%string])
  /\ forall (r : line) (out : list string),
       printPattern (mkWorld (newGame r) out) = Done (false, mkWorld (newGame r) out).
Proof.
  intros Hv He Hfuel. split.
  - unfold playLine. set (l1 := Py.replace EMPTY " " l).
    assert (entirelyEmpty l1 = true) as He1.
    { subst l1. unfold entirelyEmpty, Py.replace. rewrite forallb_forall in *.
      intros c Hc. apply list_elem_of_In, list_elem_of_fmap in Hc as (c0 & -> & Hc0).
      apply list_elem_of_In, He, Ascii.eqb_eq in Hc0. by subst c0. }
    set (start := padTrimLine l1).
    assert (entirelyEmpty start = true) as Hes by by apply entirelyEmpty_padTrimLine.
    pose proof (padTrimLine_length l1) as Hlen. fold start in Hlen.
    destruct (nextLine_blank start Hes) as [_ Hraw]; [lia|].
    destruct fuel as [|fuel]; [lia|].
    rewrite (vanish_round fuel start _ Hraw)
      by (apply forallb_replicate; reflexivity).
    rewrite padTrimLine_blank; [done| |].
    + apply forallb_replicate. reflexivity.
    + unfold Py.len in *. rewrite length_replicate. lia.
  - intros r out. by rewrite (printPattern_run _ [] r).
Qed.

Lemma empty_start_witness :
  playLine (row "..") 1
  = Done (tt, mkWorld (mkGameState [padTrimLine (Py.replace EMPTY " " (row ".."));
                                    replicate 3 BLANK])
                ["vanishing"%string]).
Proof.
  apply (empty_start (row "..") 1); [reflexivity | reflexivity | lia].
Defined.

(** C7. For a starting row with exactly one Filled cell, padded by
    [padTrimLine], the line derived next is entirely Empty, it is stored as
    the blank row of 3 cells, and the session prints "vanishing". *)
Theorem single_cell_vanishes (r : line) (fuel : nat) :
  isRow r = true -> Py.count FILLED r = 1 -> (1 <= fuel)%nat ->
  exists raw,
    nextLineUnpadded (padTrimLine r) = Some raw
    /\ entirelyEmpty raw = true
    /\ session (padTrimLine r) fuel
       = Done (tt, mkWorld (mkGameState [padTrimLine r; replicate 3 BLANK])
                     ["vanishing"%string]).
Proof.
  intros Hr Hc Hfuel. set (start := padTrimLine r).
  assert (Py.count FILLED start = 1) as Hcs by (subst start; by rewrite count_padTrimLine).
  assert (entirelyEmpty start = false) as Hes.
  { destruct (entirelyEmpty start) eqn:E; [|done].
    apply entirelyEmpty_count in E. lia. }
  destruct (nextLine_sparse start) as (raw & Hraw & Her & Hlen);
    [by apply padTrimLine_invariant | done | lia |].
  exists raw. split; [done|]. split; [done|].
  destruct fuel as [|fuel]; [lia|].
  rewrite (vanish_round fuel start raw Hraw Her).
  rewrite (padTrimLine_blank raw Her); [done|].
  pose proof (padTrimLine_length r). fold start in H. lia.
Qed.

Lemma single_cell_vanishes_witness :
  exists raw,
    nextLineUnpadded (padTrimLine (row "#")) = Some raw
    /\ entirelyEmpty raw = true
    /\ session (padTrimLine (row "#")) 99
       = Done (tt, mkWorld (mkGameState [padTrimLine (row "#"); replicate 3 BLANK])
                     ["vanishing"%string]).
Proof.
  apply (single_cell_vanishes (row "#") 99); [reflexivity | reflexivity | lia].
Defined.

(** ** The classifier *)

Section Classifier.

Lemma drop_while_ext {A} (p q : A -> bool) (l : list A) :
  (forall x, In x l -> p x = q x) -> Py.drop_while p l = Py.drop_while q l.
Proof.
  induction l as [|x l IH]; simpl; [done|]. intros H.
  rewrite (H x) by auto. destruct (q x); [|done]. apply IH. auto.
Qed.

Lemma isRow_drop_while (p : ascii -> bool) (r : line) :
  isRow r = true -> isRow (Py.drop_while p r) = true.
Proof.
  induction r as [|c r IH]; simpl; [done|]. intros H.
  destruct (p c); [|done]. apply andb_true_iff in H as [_ H]. by apply IH.
Qed.

Lemma strip_row (r : line) : isRow r = true -> Py.strip r = stripEmpty r.
Proof.
  intros Hr. unfold Py.strip, Py.rstrip, Py.lstrip, stripEmpty.
  rewrite (drop_while_ext Py.isspace isEmptyCell r)
    by (intros c; by apply isRow_space).
  f_equal. apply drop_while_ext. intros c. apply isRow_space.
  rewrite isRow_reverse. by apply isRow_drop_while.
Qed.

Lemma scanLines_check (lastl l : line) (ls : list line) :
  isRow lastl = true -> isRow l = true ->
  scanLines lastl (Py.strip lastl) (l :: ls)
  = match checkPrior lastl l with
    | Some L => Some (labelText L)
    | None => scanLines lastl (Py.strip lastl) ls
    end.
Proof.
  intros Hl Hr. simpl. rewrite !strip_row by done. unfold checkPrior.
  repeat case_bool_decide; done.
Qed.

Lemma scanLines_first (lastl : line) (priors : list line) :
  isRow lastl = true -> forallb isRow priors = true ->
  forall (k : nat) (p : line) (L : Label),
    priors !! k = Some p -> checkPrior lastl p = Some L ->
    (forall j q, (j < k)%nat -> priors !! j = Some q -> checkPrior lastl q = None) ->
    scanLines lastl (Py.strip lastl) priors = Some (labelText L).
Proof.
  intros Hl. induction priors as [|l ls IH]; intros Hrs k p L Hk Hc Hbefore; [done|].
  simpl in Hrs. apply andb_true_iff in Hrs as [Hr Hrs].
  rewrite scanLines_check by done. destruct k as [|k].
  - injection Hk as ->. by rewrite Hc.
  - rewrite (Hbefore O l) by (done || lia).
    apply (IH Hrs k p L); [done|done|].
    intros j q Hj Hq. apply (Hbefore (S j) q); [lia|done].
Qed.

End Classifier.

(** C5. On a history of rows with at least one prior row, [printPattern]
    scans the prior rows in increasing index order and checks each one for
    Vanishing (the last row strips to empty), then Blinking (the last row is
    identical to the prior, padding included), then Gliding (the two are
    identical once stripped of leading and trailing Empty cells); it prints
    the label of the first check that succeeds: the label found at prior
    index [k] when no check succeeds at any smaller index. *)
Theorem classifier_priority
    (priors : list line) (lastl : line) (out : list string)
    (k : nat) (p : line) (L : Label) :
  isRow lastl = true -> forallb isRow priors = true ->
  priors !! k = Some p -> checkPrior lastl p = Some L ->
  (forall j q, (j < k)%nat -> priors !! j = Some q -> checkPrior lastl q = None) ->
  printPattern (mkWorld (mkGameState (priors ++ [lastl])) out)
  = Done (true, mkWorld (mkGameState (priors ++ [lastl])) (out ++ [labelText L])).
Proof.
  intros Hl Hrs Hk Hc Hbefore.
  rewrite (printPattern_run _ priors lastl) by done.
  by rewrite (scanLines_first lastl priors Hl Hrs k p L Hk Hc Hbefore).
Qed.

Lemma classifier_priority_witness :
  printPattern
    (mkWorld (mkGameState ([row "     ##   "; row "    ##   "; row "   ##   "]
                           ++ [row "   ##   "])) [])
  = Done (true,
          mkWorld (mkGameState ([row "     ##   "; row "    ##   "; row "   ##   "]
                                ++ [row "   ##   "])) ([] ++ [labelText Gliding])).
Proof.
  apply (classifier_priority
           [row "     ##   "; row "    ##   "; row "   ##   "] (row "   ##   ") []
           0 (row "     ##   ") Gliding);
    [reflexivity | reflexivity | reflexivity | reflexivity | intros j q Hj; lia].
Defined.

(** C8. [fillNextLine] changes the session only by appending one row to the
    history, [printPattern] leaves the history as it is, so after a round
    and after the whole loop every row stored before is still at its index,
    unchanged. *)
Theorem history_frame :
  (forall w u w', fillNextLine w = Done (u, w') ->
     exists new, lines (game w') = lines (game w) ++ [new] /\ stdout w' = stdout w)
  /\ (forall w hit w', printPattern w = Done (hit, w') -> game w' = game w)
  /\ (forall w hit w', (fillNextLine ;; printPattern) w = Done (hit, w') ->
        exists new, lines (game w') = lines (game w) ++ [new])
  /\ (forall fuel w u w', playLoop fuel w = Done (u, w') ->
        exists more,
          lines (game w') = lines (game w) ++ more
          /\ forall i r, lines (game w) !! i = Some r -> lines (game w') !! i = Some r).
Proof.
  assert (forall w u w', fillNextLine w = Done (u, w') ->
     exists new, lines (game w') = lines (game w) ++ [new] /\ stdout w' = stdout w) as Hfill.
  { intros w u w' H.
    destruct (lines (game w)) as [|l0 ls] eqn:El using rev_ind.
    { unfold fillNextLine, mbind, M_bind, get_lines in H. rewrite El in H. done. }
    clear IHls. rewrite (fillNextLine_run w ls l0 El) in H.
    destruct (nextLineUnpadded l0) as [raw|]; [|done].
    injection H as _ <-. exists (padTrimLine raw). simpl. by rewrite El. }
  assert (forall w hit w', printPattern w = Done (hit, w') -> game w' = game w) as Hprint.
  { intros w hit w' H.
    destruct (lines (game w)) as [|l0 ls] eqn:El using rev_ind.
    { unfold printPattern, mbind, M_bind, get_lines in H. rewrite El in H. done. }
    clear IHls. rewrite (printPattern_run w ls l0 El) in H.
    destruct (scanLines l0 (Py.strip l0) ls); [by injection H as _ <-|].
    destruct (MAX_ROUNDS <=? _); by injection H as _ <-. }
  split; [done|]. split; [done|]. split.
  - intros w hit w' H. unfold mbind, M_bind in H.
    destruct (fillNextLine w) as [[u w1]| |] eqn:Hf; [|done|done].
    destruct (Hfill _ _ _ Hf) as (new & Hnew & _).
    apply Hprint in H. exists new. by rewrite H.
  - induction fuel as [|fuel IH]; intros w u w' H; [done|].
    rewrite playLoop_step in H.
    assert (forall (ls ls' more : list line), ls' = ls ++ more ->
              forall i (r : line), ls !! i = Some r -> ls' !! i = Some r) as Hkeep.
    { intros ls ls' more -> i r Hi. by apply lookup_app_l_Some. }
    destruct (_ <? _).
    + destruct (fillNextLine w) as [[u1 w1]| |] eqn:Hf; [|done|done].
      destruct (Hfill _ _ _ Hf) as (new & Hnew & _).
      destruct (printPattern w1) as [[hit w2]| |] eqn:Hp; [|done|done].
      apply Hprint in Hp. destruct hit.
      * injection H as _ <-. exists [new]. rewrite Hp. eauto.
      * apply IH in H as (more & Hmore & _).
        assert (lines (game w') = lines (game w) ++ [new] ++ more) as E
          by (by rewrite Hmore, Hp, Hnew, <- app_assoc).
        exists ([new] ++ more). eauto.
    + injection H as _ <-. exists []. rewrite app_nil_r. eauto.
Qed.

Lemma history_frame_witness :
  exists new,
    lines (game (mkWorld (mkGameState [row "   ##   "; row "   #  #   "]) []))
    = lines (game (mkWorld (newGame (row "   ##   ")) [])) ++ [new].
Proof.
  destruct (proj1 history_frame (mkWorld (newGame (row "   ##   ")) []) tt
              (mkWorld (mkGameState [row "   ##   "; row "   #  #   "]) []))
    as (new & Hnew & _); [vm_compute; reflexivity|].
  exists new. exact Hnew.
Defined.

(** C10. [padTrimLine] is idempotent on every line that has a Filled cell,
    and whatever the line, its result has at least 3 characters: a blank
    line is never stored as the empty string. *)
Theorem padTrimLine_idempotent (l : line) :
  (In FILLED l -> padTrimLine (padTrimLine l) = padTrimLine l)
  /\ 3 <= Py.len (padTrimLine l)
  /\ padTrimLine l <> [].
Proof.
  pose proof (padTrimLine_length l) as Hlen.
  split; [|split; [done|]].
  - intros Hin. apply list_elem_of_In, leadRun_has_content in Hin.
    destruct (padTrimLine_runs l Hin) as (H1 & H2 & _).
    apply padTrimLine_padded; [lia|done].
  - intros E. rewrite E in Hlen. vm_compute in Hlen. by apply Hlen.
Qed.

Lemma padTrimLine_idempotent_witness :
  padTrimLine (padTrimLine (row ".#. .      ")) = padTrimLine (row ".#. .      ").
Proof.
  apply (padTrimLine_idempotent (row ".#. .      ")). simpl. auto.
Defined.

(** * Further properties of the program *)

(** ** The first and the last filled index *)

Section Indices.

Lemma leadRun_lookup {A} (p : A -> bool) (l : list A) :
  (leadRun p l < length l)%nat ->
  exists c, l !! leadRun p l = Some c /\ p c = false.
Proof.
  induction l as [|x l IH]; simpl; [lia|].
  destruct (p x) eqn:E; [|by exists x]. intros H. apply IH. lia.
Qed.

Lemma leadRun_before {A} (p : A -> bool) (l : list A) (j : nat) :
  (j < leadRun p l)%nat -> exists c, l !! j = Some c /\ p c = true.
Proof.
  revert j. induction l as [|x l IH]; simpl; intros j Hj; [lia|].
  destruct (p x) eqn:E; [|lia]. destruct j as [|j]; [by exists x|].
  apply IH. lia.
Qed.

Lemma leadRun_not_all {A} (p : A -> bool) (l : list A) :
  forallb p l = false -> (leadRun p l < length l)%nat.
Proof.
  intros H. pose proof (leadRun_le p l).
  destruct (decide (leadRun p l = length l)) as [E|]; [|lia].
  apply leadRun_all in E. congruence.
Qed.

End Indices.

(** X1. On a line that is not blank, [getFirstFilledIdx] returns an index of
    the line, the character there is not white space, and every character
    before it is. *)
Theorem getFirstFilledIdx_spec (l : line) :
  forallb Py.isspace l = false ->
  0 <= getFirstFilledIdx l < Py.len l
  /\ (exists c, Py.getitem l (getFirstFilledIdx l) = Some c /\ Py.isspace c = false)
  /\ forall j, 0 <= j < getFirstFilledIdx l ->
       exists c, Py.getitem l j = Some c /\ Py.isspace c = true.
Proof.
  intros Hb. apply leadRun_not_all in Hb. rewrite getFirstFilledIdx_run.
  assert (0 <= Z.of_nat (leadRun Py.isspace l) < Py.len l) as Hr
    by (unfold Py.len; lia).
  split; [done|]. split.
  - rewrite getitem_in, Nat2Z.id by done. by apply leadRun_lookup.
  - intros j Hj. rewrite getitem_in by lia. apply leadRun_before. lia.
Qed.

Lemma getFirstFilledIdx_spec_witness :
  0 <= getFirstFilledIdx (row "  #. ") < Py.len (row "  #. ").
Proof. apply (getFirstFilledIdx_spec (row "  #. ")). reflexivity. Defined.

(** X2. On a line that is not blank, [getLastFilledIdx] returns an index of
    the line that is not before the first filled index, the character there
    is not white space, and every character after it is. *)
Theorem getLastFilledIdx_spec (l : line) :
  forallb Py.isspace l = false ->
  getFirstFilledIdx l <= getLastFilledIdx l < Py.len l
  /\ (exists c, Py.getitem l (getLastFilledIdx l) = Some c /\ Py.isspace c = false)
  /\ forall j, getLastFilledIdx l < j < Py.len l ->
       exists c, Py.getitem l j = Some c /\ Py.isspace c = true.
Proof.
  intros Hb. apply leadRun_not_all in Hb.
  pose proof (runs_disjoint Py.isspace l Hb) as Hd.
  rewrite getFirstFilledIdx_run, getLastFilledIdx_run.
  set (t := trailRun Py.isspace l) in *.
  assert (t < length (reverse l))%nat as Ht by (rewrite length_reverse; lia).
  split; [unfold Py.len; lia|]. split.
  - rewrite getitem_in by (unfold Py.len; lia).
    destruct (leadRun_lookup Py.isspace (reverse l) Ht) as (c & Hc & Hp).
    exists c. split; [|done]. fold (trailRun Py.isspace l) in Hc. fold t in Hc.
    rewrite reverse_lookup in Hc by lia. rewrite <- Hc. f_equal.
    unfold Py.len. lia.
  - intros j Hj. rewrite getitem_in by (unfold Py.len in *; lia).
    unfold Py.len in Hj.
    destruct (leadRun_before Py.isspace (reverse l) (length l - S (Z.to_nat j)))
      as (c & Hc & Hp).
    { fold (trailRun Py.isspace l). fold t. lia. }
    exists c. split; [|done]. rewrite reverse_lookup in Hc by lia.
    rewrite <- Hc. f_equal. lia.
Qed.

Lemma getLastFilledIdx_spec_witness :
  getFirstFilledIdx (row "  #.# ") <= getLastFilledIdx (row "  #.# ")
    < Py.len (row "  #.# ").
Proof. apply (getLastFilledIdx_spec (row "  #.# ")). reflexivity. Defined.

(** X3. On a blank line the two indices cross: [getFirstFilledIdx] returns
    the length of the line and [getLastFilledIdx] returns -1, so the loop of
    [fillNextLine] visits no index when the line has 2 characters or more. *)
Theorem blank_line_indices (l : line) :
  forallb Py.isspace l = true ->
  getFirstFilledIdx l = Py.len l
  /\ getLastFilledIdx l = -1
  /\ (2 <= Py.len l -> scannedIdxs l = []).
Proof.
  intros Hb. apply leadRun_all in Hb as Ha. apply trailRun_all in Hb as Ht.
  assert (getFirstFilledIdx l = Py.len l) as H1
    by (rewrite getFirstFilledIdx_run, Ha; done).
  assert (getLastFilledIdx l = -1) as H2
    by (rewrite getLastFilledIdx_run, Ht; unfold Py.len; lia).
  split; [done|]. split; [done|].
  intros Hn. unfold scannedIdxs. rewrite H1, H2. apply range_nil. lia.
Qed.

Lemma blank_line_indices_witness :
  getFirstFilledIdx (row "    ") = Py.len (row "    ")
  /\ getLastFilledIdx (row "    ") = -1
  /\ (2 <= Py.len (row "    ") -> scannedIdxs (row "    ") = []).
Proof. apply (blank_line_indices (row "    ")). reflexivity. Defined.

(** ** Blocks at the two ends of a line *)

(** X4. [getBlock] never returns more than 5 characters.  From index 2 on it
    returns the characters from [pos - 2] up to [pos + 2], cut at the end of
    the line; at index 0 or 1 of a line of 5 characters or more the slice
    start is negative, counts from the end, and the block is empty. *)
Theorem getBlock_edges (pos : Z) (l : line) :
  Py.len (getBlock pos l) <= 5
  /\ (2 <= pos -> getBlock pos l = take 5 (drop (Z.to_nat (pos - 2)) l))
  /\ (0 <= pos < 2 -> 5 <= Py.len l -> getBlock pos l = []).
Proof.
  unfold getBlock, Py.slice, Py.clamp. simpl from_option.
  split; [|split].
  - unfold Py.len. rewrite length_take, length_drop.
    destruct (Z.ltb_spec (pos - 2) 0), (Z.ltb_spec (pos + 1 + 2) 0); lia.
  - intros Hp.
    replace (pos - 2 <? 0) with false by (symmetry; apply Z.ltb_ge; lia).
    replace (pos + 1 + 2 <? 0) with false by (symmetry; apply Z.ltb_ge; lia).
    destruct (Z.le_gt_cases (pos - 2) (Py.len l)) as [Hin|Hout].
    + replace (Z.min (pos - 2) (Py.len l)) with (pos - 2) by lia.
      destruct (Z.le_gt_cases (pos + 1 + 2) (Py.len l)) as [Hh|Hh].
      * by replace (Z.to_nat (Z.min (pos + 1 + 2) (Py.len l) - (pos - 2))) with 5%nat by lia.
      * rewrite !take_ge; [done| |]; rewrite length_drop; unfold Py.len in *; lia.
    + rewrite !drop_ge by (unfold Py.len in *; lia). by rewrite !take_nil.
  - intros Hp Hn.
    replace (pos - 2 <? 0) with true by (symmetry; apply Z.ltb_lt; lia).
    replace (pos + 1 + 2 <? 0) with false by (symmetry; apply Z.ltb_ge; lia).
    replace (Z.to_nat _) with O by lia. done.
Qed.

Lemma getBlock_edges_witness :
  getBlock 1 (row "  ##   ") = [] /\ getBlock 5 (row "  ##   ") = row "#   ".
Proof.
  split.
  - apply (getBlock_edges 1 (row "  ##   ")); [lia | vm_compute; discriminate].
  - rewrite (proj1 (proj2 (getBlock_edges 5 (row "  ##   ")))) by lia. reflexivity.
Defined.

(** ** What padTrimLine keeps and what it changes *)

Section PadContent.

Lemma drop_while_app_all {A} (p : A -> bool) (pre l : list A) :
  forallb p pre = true -> Py.drop_while p (pre ++ l) = Py.drop_while p l.
Proof.
  induction pre as [|x pre IH]; simpl; [done|].
  intros H. apply andb_true_iff in H as [-> H]. by apply IH.
Qed.

Lemma drop_while_app_stop {A} (p : A -> bool) (l post : list A) :
  forallb p l = false -> Py.drop_while p (l ++ post) = Py.drop_while p l ++ post.
Proof.
  induction l as [|x l IH]; simpl; [done|].
  destruct (p x); simpl; [apply IH|done].
Qed.

Lemma drop_while_nil {A} (p : A -> bool) (l : list A) :
  Py.drop_while p l = [] -> forallb p l = true.
Proof.
  induction l as [|x l IH]; simpl; [done|]. destruct (p x); [apply IH|done].
Qed.

Lemma drop_while_all {A} (p : A -> bool) (l : list A) :
  forallb p l = true -> Py.drop_while p l = [].
Proof.
  induction l as [|x l IH]; simpl; [done|].
  intros H. apply andb_true_iff in H as [-> H]. by apply IH.
Qed.

Lemma rstrip_app_space (l post : line) :
  forallb Py.isspace post = true -> Py.rstrip (l ++ post) = Py.rstrip l.
Proof.
  intros H. unfold Py.rstrip. rewrite reverse_app.
  by rewrite drop_while_app_all by (by rewrite forallb_reverse).
Qed.

Lemma strip_app_l (pre l : line) :
  forallb Py.isspace pre = true -> Py.strip (pre ++ l) = Py.strip l.
Proof.
  intros H. unfold Py.strip, Py.lstrip. by rewrite drop_while_app_all.
Qed.

Lemma strip_app_r (l post : line) :
  forallb Py.isspace post = true -> Py.strip (l ++ post) = Py.strip l.
Proof.
  intros H. destruct (forallb Py.isspace l) eqn:E.
  - rewrite !strip_blank; [done|done|]. by rewrite forallb_app, E, H.
  - unfold Py.strip, Py.lstrip. rewrite drop_while_app_stop by done.
    by apply rstrip_app_space.
Qed.

Lemma strip_nil_blank (l : line) : Py.strip l = [] -> forallb Py.isspace l = true.
Proof.
  unfold Py.strip, Py.rstrip, Py.lstrip. intros H.
  assert (Py.drop_while Py.isspace (reverse (Py.drop_while Py.isspace l)) = []) as H'.
  { apply (f_equal reverse) in H. by rewrite reverse_involutive in H. }
  apply drop_while_nil in H'. rewrite forallb_reverse in H'.
  rewrite drop_while_leadRun in H'.
  rewrite <- (take_drop (leadRun Py.isspace l) l), forallb_app, H'.
  by rewrite leadRun_take_all.
Qed.

Lemma forallb_drop {A} (p : A -> bool) (k : nat) (l : list A) :
  forallb p l = true -> forallb p (drop k l) = true.
Proof.
  revert l. induction k as [|k IH]; intros [|x l]; simpl; try done.
  intros H. apply andb_true_iff in H as [_ Hl]. by apply IH.
Qed.

(** A line with content is its leading white space, its stripped form and
    its trailing white space. *)
Lemma strip_sandwich (l : line) :
  (leadRun Py.isspace l < length l)%nat ->
  l = take (leadRun Py.isspace l) l ++ Py.strip l
      ++ drop (length l - trailRun Py.isspace l) l.
Proof.
  intros Hc. pose proof (runs_disjoint Py.isspace l Hc) as Hd.
  set (a := leadRun Py.isspace l) in *. set (t := trailRun Py.isspace l) in *.
  assert (Py.strip l = take (length l - a - t) (drop a l)) as ->.
  { unfold Py.strip, Py.rstrip, Py.lstrip. rewrite drop_while_leadRun. fold a.
    rewrite drop_while_leadRun, reverse_drop, reverse_involutive, length_reverse.
    rewrite length_drop. f_equal. f_equal.
    rewrite reverse_drop. apply leadRun_take.
    fold (trailRun Py.isspace l). fold t. lia. }
  rewrite <- (take_drop a l) at 1. f_equal.
  rewrite <- (take_drop (length l - a - t) (drop a l)) at 1. f_equal.
  rewrite drop_drop. f_equal. lia.
Qed.

Lemma space_row_blanks (x : line) :
  isRow x = true -> forallb Py.isspace x = true -> x = replicate (length x) BLANK.
Proof.
  intros Hr Hs. apply entirelyEmpty_blanks. unfold entirelyEmpty.
  apply forallb_forall. intros c Hc. rewrite <- (isRow_space x c Hr Hc).
  rewrite forallb_forall in Hs. by apply Hs.
Qed.

Lemma strip_padTrimLine (l : line) : Py.strip (padTrimLine l) = Py.strip l.
Proof.
  rewrite padTrimLine_eq.
  rewrite strip_app_l by (apply forallb_replicate, isspace_blank).
  destruct (Nat.ltb_spec 3 (trailRun Py.isspace l)) as [H3|H3].
  - set (k := (length l - (trailRun Py.isspace l - 3))%nat).
    transitivity (Py.strip (take k l ++ drop k l)); [|by rewrite take_drop].
    symmetry. apply strip_app_r, trailRun_drop_all. lia.
  - apply strip_app_r, forallb_replicate, isspace_blank.
Qed.

Lemma padTrimLine_len (l : line) :
  Py.len (padTrimLine l)
  = Z.max 0 (3 - Z.of_nat (leadRun Py.isspace l)) + Py.len l + 3
    - Z.of_nat (trailRun Py.isspace l).
Proof.
  rewrite padTrimLine_eq. unfold Py.len.
  pose proof (trailRun_le Py.isspace l) as Ht.
  rewrite length_app, length_replicate.
  destruct (Nat.ltb_spec 3 (trailRun Py.isspace l)).
  - rewrite length_take. lia.
  - rewrite length_app, length_replicate. lia.
Qed.

Lemma padTrimLine_blanks (r : line) :
  entirelyEmpty r = true ->
  padTrimLine r = replicate (Z.to_nat (Z.max 3 (6 - Py.len r))) BLANK.
Proof.
  intros He. pose proof (entirelyEmpty_padTrimLine r He) as He'.
  rewrite (entirelyEmpty_blanks _ He') at 1. f_equal.
  pose proof (padTrimLine_len r) as Hl. apply entirelyEmpty_isspace in He.
  apply leadRun_all in He as Ha. apply trailRun_all in He as Ht.
  rewrite Ha, Ht in Hl. unfold Py.len in *. lia.
Qed.

End PadContent.

(** X5. On an entirely Empty row of [n] cells [padTrimLine] returns
    [max 3 (6 - n)] blanks: 6 for the empty string, 3 from 3 cells on.  A
    second call always returns 3 blanks, so [padTrimLine] is idempotent on a
    blank row only when the row has 3 cells or more. *)
Theorem padTrimLine_blank_row (r : line) :
  entirelyEmpty r = true ->
  padTrimLine r = replicate (Z.to_nat (Z.max 3 (6 - Py.len r))) BLANK
  /\ padTrimLine (padTrimLine r) = replicate 3 BLANK.
Proof.
  intros He. split; [by apply padTrimLine_blanks|].
  apply padTrimLine_blank; [by apply entirelyEmpty_padTrimLine|].
  apply padTrimLine_length.
Qed.

Lemma padTrimLine_blank_row_witness :
  padTrimLine (row " ") = replicate (Z.to_nat (Z.max 3 (6 - Py.len (row " ")))) BLANK
  /\ padTrimLine (padTrimLine (row " ")) = replicate 3 BLANK.
Proof. apply (padTrimLine_blank_row (row " ")). reflexivity. Defined.

(** X6. [padTrimLine] changes white space at the two ends only: the line
    stripped of its leading and trailing white space is the same before and
    after, and so is the number of '#' characters. *)
Theorem padTrimLine_keeps_content (l : line) :
  Py.strip (padTrimLine l) = Py.strip l
  /\ Py.count FILLED (padTrimLine l) = Py.count FILLED l.
Proof. split; [apply strip_padTrimLine | apply count_padTrimLine]. Qed.

Lemma padTrimLine_form (r : line) :
  isRow r = true -> hasFilled r = true ->
  padTrimLine r
  = replicate (Nat.max 3 (leadingEmpty r)) BLANK ++ stripEmpty r ++ replicate 3 BLANK.
Proof.
  intros Hr Hf. rewrite hasFilled_not_empty in Hf by done.
  assert (entirelyEmpty r = false) as He by (by destruct (entirelyEmpty r)).
  apply not_entirelyEmpty in He. rewrite <- isRow_leadRun in He by done.
  destruct (padTrimLine_runs r He) as (H1 & H2 & H3).
  pose proof (isRow_padTrimLine r Hr) as HR.
  pose proof (strip_padTrimLine r) as Hs.
  set (R := padTrimLine r) in *.
  rewrite (strip_sandwich R H3), H1, H2, Hs.
  rewrite <- (strip_row r Hr), <- (isRow_leadRun r Hr).
  pose proof (runs_disjoint Py.isspace R H3) as Hd. rewrite H1, H2 in Hd.
  f_equal; [|f_equal].
  - rewrite (space_row_blanks (take _ R)).
    + rewrite length_take. f_equal. lia.
    + by apply forallb_take.
    + rewrite <- H1. apply leadRun_take_all.
  - rewrite (space_row_blanks (drop _ R)).
    + rewrite length_drop. f_equal. lia.
    + by apply forallb_drop.
    + apply trailRun_drop_all. lia.
Qed.

(** X7. The padded form of a row with a Filled cell, in closed form: the
    leading Empty cells of the row, raised to 3 when fewer, then the row
    without its Empty margins, then exactly 3 Empty cells. *)
Theorem padTrimLine_closed_form (r : line) :
  isRow r = true -> hasFilled r = true ->
  padTrimLine r
  = replicate (Nat.max 3 (leadingEmpty r)) BLANK ++ stripEmpty r ++ replicate 3 BLANK.
Proof. apply padTrimLine_form. Qed.

Lemma padTrimLine_closed_form_witness :
  padTrimLine (row " # #      ")
  = replicate (Nat.max 3 (leadingEmpty (row " # #      "))) BLANK
    ++ stripEmpty (row " # #      ") ++ replicate 3 BLANK.
Proof.
  apply (padTrimLine_closed_form (row " # #      ")); reflexivity.
Defined.

(** ** Rounds: growth, extinction and the stored rows *)

Section Rounds.

Lemma leadRun_ge {A} (p : A -> bool) (l : list A) (k : nat) :
  (forall j, (j < k)%nat -> exists x, l !! j = Some x /\ p x = true) ->
  (k <= leadRun p l)%nat.
Proof.
  revert l. induction k as [|k IH]; intros l H; [lia|].
  destruct (H O) as (x & Hx & Hp); [lia|].
  destruct l as [|y l]; [done|]. injection Hx as ->. simpl. rewrite Hp.
  apply le_n_S, IH. intros j Hj. apply (H (S j)). lia.
Qed.

(** The margins of the line derived below a padded row with content: the
    leading Empty run shrinks by one cell at most, and two Empty cells remain
    at the end. *)
Lemma nextLine_margins (r raw : line) :
  paddingInvariant r = true -> entirelyEmpty r = false ->
  nextLineUnpadded r = Some raw ->
  isRow raw = true /\ Py.len raw = Py.len r
  /\ (leadingEmpty r - 1 <= leadingEmpty raw)%nat
  /\ (2 <= trailingEmpty raw)%nat.
Proof.
  intros Hp He Hraw.
  destruct (nextLine_content r Hp He) as (out & Hout & Hlen & Hj).
  assert (out = raw) as -> by congruence.
  destruct (padded_content r Hp He) as (Hr & Ha & Ht & Hd).
  assert (isRow raw = true) as Hrr.
  { apply cells_isRow. intros j Hjr. rewrite Hj by lia. destruct (_ && _); auto. }
  assert (forall j, 0 <= j < Py.len r -> inScanRange r j = false ->
            exists x, raw !! Z.to_nat j = Some x /\ isEmptyCell x = true) as Hblank.
  { intros j Hjr Hout'. exists (cell raw j). split; [apply lookup_cell; lia|].
    by rewrite Hj, Hout'. }
  split; [done|]. split; [done|]. unfold Py.len in *. split.
  - apply leadRun_ge. intros j Hjk.
    destruct (Hblank (Z.of_nat j)) as (x & Hx & Hb).
    + lia.
    + unfold inScanRange, firstFilled. apply andb_false_iff. left.
      apply Z.leb_gt. lia.
    + rewrite Nat2Z.id in Hx. eauto.
  - apply leadRun_ge. intros j Hjk.
    destruct (Hblank (Z.of_nat (length raw - S j))) as (x & Hx & Hb).
    + lia.
    + unfold inScanRange, lastFilled, Py.len. apply andb_false_iff. right.
      apply Z.leb_gt. lia.
    + rewrite Nat2Z.id in Hx. exists x. split; [|done].
      rewrite reverse_lookup by lia. done.
Qed.

Lemma storedRow_spec (r : line) :
  storedRow r = true <-> paddingInvariant r = true /\ 3 <= Py.len r.
Proof. unfold storedRow. by rewrite andb_true_iff, Z.leb_le. Qed.

Lemma storedRow_padTrimLine (l : line) :
  isRow l = true -> storedRow (padTrimLine l) = true.
Proof.
  intros Hl. apply storedRow_spec. split.
  - by apply padTrimLine_invariant.
  - apply padTrimLine_length.
Qed.

End Rounds.

(** X8. Below a stored row, [fillNextLine] appends a row of at least 3 cells
    that is at most 2 cells longer than the row above, and when the new row
    has a Filled cell its leading Empty run is at most one cell shorter than
    that of the row above. *)
Theorem fillNextLine_growth (w : world) (r : line) :
  last (lines (game w)) = Some r -> storedRow r = true ->
  exists new,
    fillNextLine w = Done (tt, withLine w new)
    /\ 3 <= Py.len new <= Py.len r + 2
    /\ (hasFilled new = true -> (leadingEmpty r - 1 <= leadingEmpty new)%nat).
Proof.
  intros Hlast Hs. apply storedRow_spec in Hs as [Hp Hn].
  apply last_Some in Hlast as [hist Hl].
  destruct (fillNextLine_padded w hist r Hl Hp) as (raw & Hraw & Hr & Hf); [lia|].
  exists (padTrimLine raw). split; [done|].
  pose proof (padTrimLine_length raw) as H3.
  destruct (entirelyEmpty r) eqn:He.
  - destruct (nextLine_blank r He) as [_ Hb]; [lia|].
    assert (raw = replicate (length r) BLANK) as -> by congruence.
    rewrite padTrimLine_blank.
    + split; [unfold Py.len in *; simpl; lia|]. intros Hf'. discriminate Hf'.
    + apply forallb_replicate. reflexivity.
    + unfold Py.len in *. rewrite length_replicate. lia.
  - destruct (nextLine_margins r raw Hp He Hraw) as (_ & Hlen & Ha & Ht).
    destruct (padded_content r Hp He) as (_ & Ha3 & _ & _).
    split.
    + split; [done|].
      rewrite padTrimLine_len, (isRow_leadRun raw Hr), (isRow_trailRun raw Hr).
      lia.
    + intros Hfilled. pose proof (isRow_padTrimLine raw Hr) as Hr'.
      rewrite hasFilled_not_empty in Hfilled by done.
      destruct (entirelyEmpty raw) eqn:Her.
      * by rewrite entirelyEmpty_padTrimLine in Hfilled.
      * apply not_entirelyEmpty in Her. rewrite <- isRow_leadRun in Her by done.
        destruct (padTrimLine_runs raw Her) as (H1 & _ & _).
        rewrite (isRow_leadRun _ Hr'), (isRow_leadRun raw Hr) in H1. lia.
Qed.

Lemma fillNextLine_growth_witness :
  exists new,
    fillNextLine (mkWorld (newGame (row "   ###   ")) [])
    = Done (tt, withLine (mkWorld (newGame (row "   ###   ")) []) new)
    /\ 3 <= Py.len new <= Py.len (row "   ###   ") + 2
    /\ (hasFilled new = true ->
        (leadingEmpty (row "   ###   ") - 1 <= leadingEmpty new)%nat).
Proof.
  apply (fillNextLine_growth (mkWorld (newGame (row "   ###   ")) []) (row "   ###   "));
    reflexivity.
Defined.

(** X9. No spontaneous generation: below an entirely Empty row of 2 cells or
    more, [fillNextLine] appends an entirely Empty row, of [max 3 (6 - n)]
    cells for a row of [n] cells. *)
Theorem blank_stays_blank (w : world) (r : line) :
  last (lines (game w)) = Some r -> entirelyEmpty r = true -> 2 <= Py.len r ->
  fillNextLine w
  = Done (tt, withLine w (replicate (Z.to_nat (Z.max 3 (6 - Py.len r))) BLANK)).
Proof.
  intros Hlast He Hn. apply last_Some in Hlast as [hist Hl].
  rewrite (fillNextLine_run w hist r Hl).
  destruct (nextLine_blank r He Hn) as [_ ->].
  rewrite padTrimLine_blanks by (apply forallb_replicate; reflexivity).
  unfold Py.len. by rewrite length_replicate.
Qed.

Lemma blank_stays_blank_witness :
  fillNextLine (mkWorld (newGame (row "    ")) [])
  = Done (tt, withLine (mkWorld (newGame (row "    ")) [])
                (replicate (Z.to_nat (Z.max 3 (6 - Py.len (row "    ")))) BLANK)).
Proof.
  apply (blank_stays_blank (mkWorld (newGame (row "    ")) []) (row "    "));
    [reflexivity | reflexivity | vm_compute; discriminate].
Defined.

(** X10. The stored rows keep their invariant through a whole session: when
    every row of the history keeps the padding invariant and has 3 cells or
    more, so does every row of the history the loop of [play] ends with; this
    holds for the history of every validated starting line. *)
Theorem stored_rows_invariant :
  (forall fuel w u w',
     forallb storedRow (lines (game w)) = true ->
     playLoop fuel w = Done (u, w') ->
     forallb storedRow (lines (game w')) = true)
  /\ (forall l fuel u w,
        validLine l = true -> playLine l fuel = Done (u, w) ->
        forallb storedRow (lines (game w)) = true).
Proof.
  assert (forall fuel w u w',
     forallb storedRow (lines (game w)) = true ->
     playLoop fuel w = Done (u, w') ->
     forallb storedRow (lines (game w')) = true) as Hloop.
  { induction fuel as [|fuel IH]; intros w u w' Hs H; [done|].
    rewrite playLoop_step in H. destruct (_ <? _); [|by injection H as _ <-].
    destruct (lines (game w)) as [|r hist] eqn:El using rev_ind.
    { unfold fillNextLine, mbind, M_bind, get_lines in H. rewrite El in H. done. }
    clear IHhist. rewrite forallb_app in Hs. simpl in Hs.
    apply andb_true_iff in Hs as [Hh Hr]. rewrite andb_true_r in Hr.
    apply storedRow_spec in Hr as [Hp Hn].
    destruct (fillNextLine_padded w hist r El Hp) as (raw & Hraw & Hrr & Hf); [lia|].
    rewrite Hf in H. set (w1 := withLine w (padTrimLine raw)) in *.
    assert (forallb storedRow (lines (game w1)) = true) as Hs1.
    { subst w1. simpl. rewrite El, !forallb_app, Hh. simpl.
      rewrite storedRow_padTrimLine by done.
      replace (storedRow r) with true; [done|].
      symmetry. by apply storedRow_spec. }
    rewrite (printPattern_run w1 (lines (game w)) (padTrimLine raw)) in H by done.
    destruct (scanLines _ _ _); [by injection H as _ <-|].
    destruct (MAX_ROUNDS <=? _); [by injection H as _ <-|].
    by apply (IH w1 u w'). }
  split; [done|].
  intros l fuel u w Hv H. unfold playLine, session in H.
  apply (Hloop _ _ _ _) in H; [done|]. simpl.
  rewrite storedRow_padTrimLine; [done|]. by apply validLine_row.
Qed.

Lemma stored_rows_invariant_witness :
  forallb storedRow
    (lines (game (mkWorld (mkGameState [row "   #   "; row "   "])
                    ["vanishing"%string]))) = true.
Proof.
  apply (proj2 stored_rows_invariant (row "#") 1%nat tt
           (mkWorld (mkGameState [row "   #   "; row "   "]) ["vanishing"%string]));
    [reflexivity | vm_compute; reflexivity].
Defined.

(** ** What the labels mean *)

Section Labels.

Lemma scanLines_vanishing (lastl stripped : line) (ls : list line) :
  scanLines lastl stripped ls = Some "vanishing"%string -> stripped = [].
Proof.
  induction ls as [|l ls IH]; simpl; [done|].
  repeat case_bool_decide; intros Hs;
    first [done | discriminate Hs | by apply IH].
Qed.

Lemma scanLines_none (lastl : line) (ls : list line) :
  scanLines lastl (Py.strip lastl) ls = None
  <-> ls = [] \/ (Py.strip lastl <> []
                  /\ forall p, In p ls -> Py.strip p <> Py.strip lastl).
Proof.
  induction ls as [|l ls IH]; simpl; [by split; auto|].
  repeat case_bool_decide; split; try done.
  - intros [Hn|[Hn _]]; done.
  - intros [Hn|[_ Hn]]; [done|]. subst l. by destruct (Hn lastl); auto.
  - intros [Hn|[_ Hn]]; [done|]. by destruct (Hn l); auto.
  - intros Hs. right. split; [done|]. intros p [<-|Hp]; [done|].
    apply IH in Hs as [->|[_ Hs]]; [done|by apply Hs].
  - intros [Hn|[Hs Hn]]; [done|]. apply IH.
    destruct ls; [by left|right]. split; [done|]. intros p Hp. apply Hn. by right.
Qed.

Lemma scanLines_sound (lastl : line) (ls : list line) (label : string) :
  scanLines lastl (Py.strip lastl) ls = Some label ->
  (label = "blinking"%string -> Py.strip lastl <> [] /\ In lastl ls)
  /\ (label = "gliding"%string ->
      Py.strip lastl <> []
      /\ exists p, In p ls /\ p <> lastl /\ Py.strip p = Py.strip lastl).
Proof.
  induction ls as [|l ls IH]; simpl; [done|].
  repeat case_bool_decide.
  - intros Hs. injection Hs as <-. done.
  - intros Hs. injection Hs as <-. subst l. split; [auto|done].
  - intros Hs. injection Hs as <-. split; [done|]. intros _. split; [done|].
    exists l. split; [by left|]. split; [congruence|done].
  - intros Hs. destruct (IH Hs) as [Hb Hg]. split.
    + intros E. destruct (Hb E). auto.
    + intros E. destruct (Hg E) as (Hn & p & Hp & Hne & Heq).
      split; [done|]. exists p. auto.
Qed.

Lemma withOutput_inj (w : world) (s1 s2 : string) :
  Done (true, withOutput w s1) = Done (true, withOutput w s2) -> s1 = s2.
Proof.
  unfold withOutput. intros H. injection H as H.
  apply app_inv_head in H. by injection H.
Qed.

End Labels.

(** X11. With at least one earlier row in the history, [printPattern] prints
    "vanishing" exactly when the last row is blank. *)
Theorem vanishing_iff_blank (priors : list line) (lastl : line) (out : list string) :
  1 <= Py.len priors ->
  printPattern (mkWorld (mkGameState (priors ++ [lastl])) out)
  = Done (true, mkWorld (mkGameState (priors ++ [lastl])) (out ++ ["vanishing"%string]))
  <-> forallb Py.isspace lastl = true.
Proof.
  intros Hn. rewrite (printPattern_run _ priors lastl) by done.
  change (mkWorld (mkGameState (priors ++ [lastl])) (out ++ ["vanishing"%string]))
    with (withOutput (mkWorld (mkGameState (priors ++ [lastl])) out) "vanishing").
  split.
  - destruct (scanLines _ _ _) as [label|] eqn:Hs.
    + intros H. apply withOutput_inj in H. subst label.
      by apply strip_nil_blank, (scanLines_vanishing lastl _ priors).
    + destruct (_ <=? _); intros H; [|done].
      by apply withOutput_inj in H.
  - intros Hb. destruct priors as [|p ps]; [by vm_compute in Hn|].
    simpl. by rewrite strip_blank, bool_decide_true.
Qed.

Lemma vanishing_iff_blank_witness :
  printPattern (mkWorld (mkGameState ([row "   #   "] ++ [row "   "])) [])
  = Done (true, mkWorld (mkGameState ([row "   #   "] ++ [row "   "]))
                  ([] ++ ["vanishing"%string])).
Proof.
  apply (vanishing_iff_blank [row "   #   "] (row "   ") []);
    [vm_compute; discriminate | reflexivity].
Defined.

(** X12. [printPattern] prints "other" exactly when the history holds 100
    rows or more, the last row is not blank and, once stripped, it differs
    from every earlier row stripped; it returns False, printing nothing,
    exactly when the history holds fewer than 100 rows and either there is no
    earlier row or the same two conditions hold. *)
Theorem no_repeat_outcome (priors : list line) (lastl : line) (out : list string) :
  let w := mkWorld (mkGameState (priors ++ [lastl])) out in
  (printPattern w = Done (true, withOutput w "other")
   <-> MAX_ROUNDS <= Py.len (priors ++ [lastl])
       /\ Py.strip lastl <> []
       /\ forall p, In p priors -> Py.strip p <> Py.strip lastl)
  /\ (printPattern w = Done (false, w)
      <-> Py.len (priors ++ [lastl]) < MAX_ROUNDS
          /\ (priors = []
              \/ (Py.strip lastl <> []
                  /\ forall p, In p priors -> Py.strip p <> Py.strip lastl))).
Proof.
  intros w. rewrite (printPattern_run w priors lastl) by done.
  pose proof (scanLines_none lastl priors) as Hnone.
  assert (lines (game w) = priors ++ [lastl]) as -> by done.
  destruct (scanLines lastl (Py.strip lastl) priors) as [label|] eqn:Hs.
  - assert (~ (priors = [] \/ Py.strip lastl <> []
               /\ (forall p, In p priors -> Py.strip p <> Py.strip lastl))) as Hno
      by (intros H; by apply Hnone in H).
    split; split.
    + intros H. apply withOutput_inj in H. subst label.
      apply scanLines_label in Hs as [?|[?|?]]; discriminate.
    + intros (_ & H1 & H2). destruct Hno. auto.
    + done.
    + intros [_ H]. by destruct Hno.
  - assert (priors = [] \/ Py.strip lastl <> []
            /\ (forall p, In p priors -> Py.strip p <> Py.strip lastl)) as Hyes
      by (by apply Hnone).
    destruct (Z.leb_spec MAX_ROUNDS (Py.len (priors ++ [lastl]))) as [Hge|Hlt].
    + split; split.
      * intros _. split; [done|]. destruct Hyes as [->|?]; [|done].
        by vm_compute in Hge.
      * done.
      * done.
      * intros [Hlt _]. lia.
    + split; split.
      * done.
      * intros [Hge _]. lia.
      * done.
      * done.
Qed.

(** X13. The two labels for a repeat are sound: "blinking" is printed only
    when the last row is not blank and is equal to an earlier row, and
    "gliding" only when it is not blank and an earlier row that differs from
    it is equal to it once both are stripped. *)
Theorem repeat_labels_sound
    (priors : list line) (lastl : line) (out : list string) (label : string) :
  printPattern (mkWorld (mkGameState (priors ++ [lastl])) out)
  = Done (true, mkWorld (mkGameState (priors ++ [lastl])) (out ++ [label])) ->
  (label = "blinking"%string -> Py.strip lastl <> [] /\ In lastl priors)
  /\ (label = "gliding"%string ->
      Py.strip lastl <> []
      /\ exists p, In p priors /\ p <> lastl /\ Py.strip p = Py.strip lastl).
Proof.
  rewrite (printPattern_run _ priors lastl) by done.
  change (mkWorld (mkGameState (priors ++ [lastl])) (out ++ [label]))
    with (withOutput (mkWorld (mkGameState (priors ++ [lastl])) out) label).
  destruct (scanLines _ _ _) as [label'|] eqn:Hs.
  - intros H. apply withOutput_inj in H. subst label'.
    by apply scanLines_sound.
  - destruct (_ <=? _); intros H; [|done].
    apply withOutput_inj in H. subst label. done.
Qed.

Lemma repeat_labels_sound_witness :
  Py.strip (row "   ##   ") <> []
  /\ exists p, In p [row "    ##   "; row "   ##   "] /\ p <> row "   ##   "
               /\ Py.strip p = Py.strip (row "   ##   ").
Proof.
  apply (repeat_labels_sound [row "    ##   "; row "   ##   "] (row "   ##   ") []
           "gliding"%string); reflexivity.
Defined.

(** ** Reading the file *)

Section File.

Lemma drop_while_head {A} (p : A -> bool) (l : list A) (x : A) (rest : list A) :
  Py.drop_while p l = x :: rest -> p x = false.
Proof.
  induction l as [|y l IH]; simpl; [done|].
  destruct (p y) eqn:E; [done|]. intros H. injection H as <- _. done.
Qed.

(** Once the newline at its end is removed, the pattern accepts a line
    exactly when [validLine] does. *)
Lemma reMatch_stripped (l : line) :
  reMatch (rstripChar NEWLINE l) = validLine (rstripChar NEWLINE l).
Proof.
  unfold reMatch, rstripChar. rewrite reverse_involutive.
  destruct (Py.drop_while _ (reverse l)) as [|c rest] eqn:E; [apply orb_false_r|].
  apply drop_while_head in E. rewrite E. apply orb_false_r.
Qed.

Lemma playFile_skip (fuel : nat) (l : line) (file : list line) (out : list string) :
  skippedLine l = true -> playFile fuel (l :: file) out = playFile fuel file out.
Proof. unfold skippedLine. intros H. simpl. by rewrite H. Qed.

Lemma playFile_accept (fuel : nat) (l : line) (file : list line) (out : list string) :
  (99 <= fuel)%nat -> acceptedLine l = true ->
  exists label,
    In label labels
    /\ playFile fuel (l :: file) out = playFile fuel file (out ++ [label]).
Proof.
  intros Hfuel Ha. unfold acceptedLine in Ha.
  apply andb_true_iff in Ha as [Ha Hv]. apply andb_true_iff in Ha as [Hs Hlen].
  apply negb_true_iff in Hs. unfold skippedLine in Hs. apply Z.leb_le in Hlen.
  simpl. rewrite Hs.
  replace (MAX_LINE_LEN <? Py.len l) with false by (symmetry; apply Z.ltb_ge; lia).
  rewrite reMatch_stripped, Hv. simpl.
  set (l2 := padTrimLine (Py.replace EMPTY " " (rstripChar NEWLINE l))).
  destruct (playLoop_run fuel (mkWorld (newGame l2) out) [] l2)
    as (w & label & more & HP & Ho & Hin & _).
  - done.
  - apply padTrimLine_invariant. by apply validLine_row.
  - pose proof (padTrimLine_length (Py.replace EMPTY " " (rstripChar NEWLINE l))).
    fold l2 in H. lia.
  - by vm_compute.
  - simpl. vm_compute Z.to_nat. done.
  - exists label. split; [done|]. by rewrite HP, Ho.
Qed.

Lemma playFile_reject (fuel : nat) (l : line) (file : list line) (out : list string) :
  skippedLine l = false -> acceptedLine l = false ->
  playFile fuel (l :: file) out = Exited 1 out [rejectMsg l].
Proof.
  unfold acceptedLine, skippedLine, rejectMsg. intros Hs Ha. rewrite Hs in Ha.
  simpl in Ha. simpl. rewrite Hs.
  destruct (Z.ltb_spec MAX_LINE_LEN (Py.len l)) as [Hlong|Hshort]; [done|].
  replace (Py.len l <=? MAX_LINE_LEN) with true in Ha
    by (symmetry; apply Z.leb_le; lia).
  simpl in Ha. by rewrite reMatch_stripped, Ha.
Qed.

(** A prefix of lines that are all skipped or accepted prints one label for
    each accepted line, then the rest of the file is read. *)
Lemma playFile_prefix (fuel : nat) (pre file : list line) :
  (99 <= fuel)%nat ->
  forallb (fun l => skippedLine l || acceptedLine l) pre = true ->
  forall out, exists labs,
    playFile fuel (pre ++ file) out = playFile fuel file (out ++ labs)
    /\ Forall (fun label => In label labels) labs
    /\ length labs = length (List.filter acceptedLine pre).
Proof.
  intros Hfuel. induction pre as [|l pre IH]; intros Hall out.
  - exists []. by rewrite app_nil_r.
  - simpl in Hall. apply andb_true_iff in Hall as [Hl Hall].
    destruct (skippedLine l) eqn:Hs.
    + destruct (IH Hall out) as (labs & Hplay & Hin & Hlen).
      exists labs. split; [|split; [done|]].
      * by rewrite <- app_comm_cons, playFile_skip.
      * simpl. unfold acceptedLine at 1. by rewrite Hs.
    + simpl in Hl.
      destruct (playFile_accept fuel l (pre ++ file) out Hfuel Hl) as (label & Hin & Hstep).
      destruct (IH Hall (out ++ [label])) as (labs & Hplay & Hins & Hlen).
      exists (label :: labs). split; [|split].
      * rewrite <- app_comm_cons, Hstep, Hplay. by rewrite <- app_assoc.
      * by constructor.
      * simpl. rewrite Hl. simpl. by rewrite Hlen.
Qed.

End File.

(** X14. [play] ignores the lines that are blank once stripped, wherever
    they stand in the file and whatever their length: the outcome is that of
    the file without them. *)
Theorem playFile_skips_blank (fuel : nat) (file : list line) (out : list string) :
  playFile fuel file out
  = playFile fuel (List.filter (fun l => negb (skippedLine l)) file) out.
Proof.
  revert out. induction file as [|l file IH]; intros out; [done|].
  simpl List.filter. destruct (skippedLine l) eqn:Hs; simpl negb; cbv iota.
  - by rewrite playFile_skip.
  - unfold skippedLine in Hs. simpl. rewrite Hs.
    destruct (_ <? _); [done|]. destruct (negb _); [done|].
    destruct (playLoop _ _) as [[u w]| |]; done.
Qed.

(** X15. On a file whose lines are all blank or accepted (at most 10240
    characters and, without the newline, one or more of '.' and '#'), [play]
    returns normally and prints exactly one label for each accepted line,
    after what was printed before. *)
Theorem playFile_accepts (fuel : nat) (file : list line) (out : list string) :
  (99 <= fuel)%nat ->
  forallb (fun l => skippedLine l || acceptedLine l) file = true ->
  exists labs,
    playFile fuel file out = Finished (out ++ labs)
    /\ Forall (fun label => In label labels) labs
    /\ length labs = length (List.filter acceptedLine file).
Proof.
  intros Hfuel Hall.
  destruct (playFile_prefix fuel file [] Hfuel Hall out) as (labs & Hplay & Hin & Hlen).
  exists labs. rewrite app_nil_r in Hplay. by rewrite Hplay.
Qed.

Lemma playFile_accepts_witness :
  exists labs,
    playFile 99 [row "#" ++ [NEWLINE]; [NEWLINE]; row "##.#"] []
    = Finished ([] ++ labs)
    /\ Forall (fun label => In label labels) labs
    /\ length labs
       = length (List.filter acceptedLine [row "#" ++ [NEWLINE]; [NEWLINE]; row "##.#"]).
Proof.
  apply (playFile_accepts 99 [row "#" ++ [NEWLINE]; [NEWLINE]; row "##.#"] []);
    [lia | reflexivity].
Defined.

(** X16. [play] stops at the first line that is neither blank nor accepted:
    it exits with status 1, the standard error holds the one message for
    that line, the standard output holds one label for each accepted line
    before it, and no later line is read. *)
Theorem playFile_rejects
    (fuel : nat) (pre : list line) (bad : line) (post : list line)
    (out : list string) :
  (99 <= fuel)%nat ->
  forallb (fun l => skippedLine l || acceptedLine l) pre = true ->
  skippedLine bad = false -> acceptedLine bad = false ->
  exists labs,
    playFile fuel (pre ++ bad :: post) out = Exited 1 (out ++ labs) [rejectMsg bad]
    /\ Forall (fun label => In label labels) labs
    /\ length labs = length (List.filter acceptedLine pre).
Proof.
  intros Hfuel Hall Hs Ha.
  destruct (playFile_prefix fuel pre (bad :: post) Hfuel Hall out)
    as (labs & Hplay & Hin & Hlen).
  exists labs. by rewrite Hplay, playFile_reject.
Qed.

Lemma playFile_rejects_witness :
  exists labs,
    playFile 99 ([row "#" ++ [NEWLINE]] ++ (row "# #" ++ [NEWLINE]) :: [row "##"]) []
    = Exited 1 ([] ++ labs) [rejectMsg (row "# #" ++ [NEWLINE])]
    /\ Forall (fun label => In label labels) labs
    /\ length labs = length (List.filter acceptedLine [row "#" ++ [NEWLINE]]).
Proof.
  apply (playFile_rejects 99 [row "#" ++ [NEWLINE]] (row "# #" ++ [NEWLINE]) [row "##"] []);
    [lia | reflexivity | reflexivity | reflexivity].
Defined.

(** ** Symmetries of the derivation rule *)

Section Symmetry.

Lemma cell_cons (r : line) (j : Z) : cell (BLANK :: r) (j + 1) = cell r j.
Proof.
  unfold cell. destruct (Z.leb_spec 0 j) as [Hj|Hj].
  - replace (0 <=? j + 1) with true by (symmetry; apply Z.leb_le; lia).
    by replace (Z.to_nat (j + 1)) with (S (Z.to_nat j)) by lia.
  - destruct (Z.leb_spec 0 (j + 1)) as [Hj1|Hj1]; [|done].
    by replace (j + 1) with 0 by lia.
Qed.

Lemma ruleFills_cons (r : line) (j : Z) :
  ruleFills (BLANK :: r) (j + 1) = ruleFills r j.
Proof.
  unfold ruleFills, filledAround.
  replace (j + 1 - 2) with (j - 2 + 1) by lia.
  replace (j + 1 - 1) with (j - 1 + 1) by lia.
  replace (j + 1 + 1) with ((j + 1) + 1) by lia.
  replace (j + 1 + 2) with ((j + 2) + 1) by lia.
  by rewrite !cell_cons.
Qed.

Lemma trailingEmpty_cons (c : ascii) (r : line) :
  entirelyEmpty r = false -> trailingEmpty (c :: r) = trailingEmpty r.
Proof.
  intros He. unfold trailingEmpty, trailRun. rewrite reverse_cons.
  apply leadRun_app_stop. rewrite length_reverse.
  apply not_entirelyEmpty in He. by apply (trailRun_lt isEmptyCell r).
Qed.

Lemma paddingInvariant_cons (r : line) :
  paddingInvariant r = true -> entirelyEmpty r = false ->
  paddingInvariant (BLANK :: r) = true /\ entirelyEmpty (BLANK :: r) = false.
Proof.
  intros Hp He. destruct (padded_content r Hp He) as (Hr & Ha & Ht & _).
  split; [|simpl; by rewrite He].
  unfold paddingInvariant. rewrite trailingEmpty_cons by done.
  simpl. fold (isRow r). fold (entirelyEmpty r).
  rewrite Hr, He, Ht. simpl. apply andb_true_iff. split; [|done].
  apply Z.leb_le. change (leadingEmpty (BLANK :: r)) with (S (leadingEmpty r)). lia.
Qed.

Lemma inScanRange_cons (r : line) (j : Z) :
  entirelyEmpty r = false ->
  inScanRange (BLANK :: r) (j + 1) = inScanRange r j.
Proof.
  intros He. unfold inScanRange, firstFilled, lastFilled, Py.len.
  rewrite trailingEmpty_cons by done.
  change (leadingEmpty (BLANK :: r)) with (S (leadingEmpty r)). simpl length.
  f_equal.
  - destruct (Z.leb_spec (Z.of_nat (S (leadingEmpty r)) - 1) (j + 1)),
      (Z.leb_spec (Z.of_nat (leadingEmpty r) - 1) j); lia || done.
  - destruct (Z.leb_spec (j + 1) (Z.of_nat (S (length r)) - Z.of_nat (trailingEmpty r) - 1 + 1)),
      (Z.leb_spec j (Z.of_nat (length r) - Z.of_nat (trailingEmpty r) - 1 + 1)); lia || done.
Qed.

Lemma cell_reverse (r : line) (j : Z) :
  cell (reverse r) j = cell r (Py.len r - 1 - j).
Proof.
  unfold cell, Py.len. destruct (Z.leb_spec 0 j) as [Hj|Hj].
  - destruct (Z.leb_spec 0 (Z.of_nat (length r) - 1 - j)) as [Hk|Hk].
    + rewrite reverse_lookup by lia. do 2 f_equal. lia.
    + rewrite (lookup_ge_None_2 (reverse r)) by (rewrite length_reverse; lia). done.
  - replace (0 <=? Z.of_nat (length r) - 1 - j) with true
      by (symmetry; apply Z.leb_le; lia).
    rewrite (lookup_ge_None_2 r) by lia. done.
Qed.

Lemma ruleFills_reverse (r : line) (j : Z) :
  ruleFills (reverse r) j = ruleFills r (Py.len r - 1 - j).
Proof.
  assert (filledAround (reverse r) j = filledAround r (Py.len r - 1 - j)) as Hf.
  { unfold filledAround. rewrite !cell_reverse.
    replace (Py.len r - 1 - (j - 2)) with (Py.len r - 1 - j + 2) by lia.
    replace (Py.len r - 1 - (j - 1)) with (Py.len r - 1 - j + 1) by lia.
    replace (Py.len r - 1 - (j + 1)) with (Py.len r - 1 - j - 1) by lia.
    replace (Py.len r - 1 - (j + 2)) with (Py.len r - 1 - j - 2) by lia.
    lia. }
  unfold ruleFills. by rewrite Hf, cell_reverse.
Qed.

Lemma runs_reverse (r : line) :
  leadingEmpty (reverse r) = trailingEmpty r
  /\ trailingEmpty (reverse r) = leadingEmpty r.
Proof.
  unfold leadingEmpty, trailingEmpty, trailRun. by rewrite reverse_involutive.
Qed.

Lemma inScanRange_reverse (r : line) (j : Z) :
  inScanRange (reverse r) j = inScanRange r (Py.len r - 1 - j).
Proof.
  unfold inScanRange, firstFilled, lastFilled, Py.len.
  destruct (runs_reverse r) as [-> ->]. rewrite length_reverse.
  rewrite andb_comm. f_equal.
  - destruct (Z.leb_spec j (Z.of_nat (length r) - Z.of_nat (leadingEmpty r) - 1 + 1)),
      (Z.leb_spec (Z.of_nat (leadingEmpty r) - 1) (Z.of_nat (length r) - 1 - j)); lia || done.
  - destruct (Z.leb_spec (Z.of_nat (trailingEmpty r) - 1) j),
      (Z.leb_spec (Z.of_nat (length r) - 1 - j)
         (Z.of_nat (length r) - Z.of_nat (trailingEmpty r) - 1 + 1)); lia || done.
Qed.

End Symmetry.

(** X17. The derivation is invariant under translation: one more Empty cell
    in front of a padded row with a Filled cell puts one more Empty cell in
    front of the line derived from it, and changes nothing else. *)
Theorem rule_translation (r : line) :
  paddingInvariant r = true -> hasFilled r = true ->
  nextLineUnpadded (BLANK :: r) = (fun out => BLANK :: out) <$> nextLineUnpadded r.
Proof.
  intros Hp Hf.
  assert (isRow r = true) as Hr
    by (unfold paddingInvariant in Hp; by apply andb_true_iff in Hp as [? _]).
  assert (entirelyEmpty r = false) as He.
  { rewrite hasFilled_not_empty in Hf by done. by destruct (entirelyEmpty r). }
  destruct (paddingInvariant_cons r Hp He) as [Hp' He'].
  destruct (padded_content r Hp He) as (_ & Ha & _ & _).
  destruct (nextLine_content r Hp He) as (out & -> & Hlen & Hj).
  destruct (nextLine_content (BLANK :: r) Hp' He') as (out' & -> & Hlen' & Hj').
  simpl. f_equal. apply list_eq. intros i.
  assert (Py.len out' = Py.len out + 1) as Hl
    by (rewrite Hlen, Hlen'; unfold Py.len; simpl; lia).
  destruct (decide (i < length out')%nat) as [Hi|Hi].
  - assert (0 <= Z.of_nat i < Py.len out') as Hr' by (unfold Py.len; lia).
    pose proof (lookup_cell out' _ Hr') as Hc. rewrite Nat2Z.id in Hc.
    rewrite Hc, Hj' by lia. destruct i as [|k].
    + assert (inScanRange (BLANK :: r) 0 = false) as E.
      { unfold inScanRange, firstFilled.
        change (leadingEmpty (BLANK :: r)) with (S (leadingEmpty r)).
        apply andb_false_iff. left. apply Z.leb_gt. lia. }
      change (Z.of_nat 0) with 0. by rewrite E.
    + assert (0 <= Z.of_nat k < Py.len out) as Hk by (unfold Py.len in *; lia).
      pose proof (lookup_cell out _ Hk) as Hck. rewrite Nat2Z.id in Hck.
      replace (Z.of_nat (S k)) with (Z.of_nat k + 1) by lia.
      rewrite inScanRange_cons, ruleFills_cons by done.
      change ((BLANK :: out) !! S k) with (out !! k).
      by rewrite Hck, Hj by lia.
  - rewrite !lookup_ge_None_2; [done| |lia].
    unfold Py.len in Hl. simpl. lia.
Qed.

Lemma rule_translation_witness :
  nextLineUnpadded (BLANK :: row "   ##   ")
  = (fun out => BLANK :: out) <$> nextLineUnpadded (row "   ##   ").
Proof. apply (rule_translation (row "   ##   ")); reflexivity. Defined.

(** X18. The derivation is invariant under reflection: for a row with
    exactly 3 Empty cells on each side of its Filled cells, the line derived
    from the reversed row is the reverse of the line derived from the row. *)
Theorem rule_reflection (r : line) :
  paddingInvariant r = true -> hasFilled r = true -> leadingEmpty r = 3%nat ->
  nextLineUnpadded (reverse r) = reverse <$> nextLineUnpadded r.
Proof.
  intros Hp Hf Ha3.
  assert (isRow r = true) as Hr
    by (unfold paddingInvariant in Hp; by apply andb_true_iff in Hp as [? _]).
  assert (entirelyEmpty r = false) as He.
  { rewrite hasFilled_not_empty in Hf by done. by destruct (entirelyEmpty r). }
  destruct (padded_content r Hp He) as (_ & _ & Ht & _).
  assert (entirelyEmpty (reverse r) = false) as He'
    by (unfold entirelyEmpty in *; by rewrite forallb_reverse).
  assert (paddingInvariant (reverse r) = true) as Hp'.
  { unfold paddingInvariant. destruct (runs_reverse r) as [-> ->].
    rewrite isRow_reverse, Hr, He', Ht, Ha3. done. }
  destruct (nextLine_content r Hp He) as (out & -> & Hlen & Hj).
  destruct (nextLine_content (reverse r) Hp' He') as (out' & -> & Hlen' & Hj').
  simpl. f_equal. apply list_eq. intros i.
  assert (length out' = length r /\ length out = length r) as [Hl' Hl]
    by (unfold Py.len in *; rewrite length_reverse in Hlen'; lia).
  destruct (decide (i < length r)%nat) as [Hi|Hi].
  - assert (0 <= Z.of_nat i < Py.len out') as Hr' by (unfold Py.len; lia).
    pose proof (lookup_cell out' _ Hr') as Hc. rewrite Nat2Z.id in Hc.
    rewrite Hc, Hj' by (unfold Py.len in *; rewrite length_reverse; lia).
    rewrite reverse_lookup by lia.
    assert (0 <= Py.len r - 1 - Z.of_nat i < Py.len out) as Hk
      by (unfold Py.len; lia).
    pose proof (lookup_cell out _ Hk) as Hck.
    replace (Z.to_nat (Py.len r - 1 - Z.of_nat i)) with (length out - S i)%nat in Hck
      by (unfold Py.len; lia).
    rewrite Hck, Hj by (unfold Py.len in *; lia).
    by rewrite inScanRange_reverse, ruleFills_reverse.
  - rewrite !lookup_ge_None_2; [done| |lia]. rewrite length_reverse. lia.
Qed.

Lemma rule_reflection_witness :
  nextLineUnpadded (reverse (row "   ## #   "))
  = reverse <$> nextLineUnpadded (row "   ## #   ").
Proof. apply (rule_reflection (row "   ## #   ")); reflexivity. Defined.

(** ** Trailing Empty cells of the starting line *)

Section Trailing.

Lemma replace_app (l m : line) :
  Py.replace EMPTY " " (l ++ m) = Py.replace EMPTY " " l ++ Py.replace EMPTY " " m.
Proof. unfold Py.replace. apply fmap_app. Qed.

Lemma replace_dots (k : nat) :
  Py.replace EMPTY " " (replicate k EMPTY) = replicate k BLANK.
Proof. unfold Py.replace. by rewrite fmap_replicate. Qed.

Lemma hasFilled_replace (l : line) :
  hasFilled (Py.replace EMPTY " " l) = hasFilled l.
Proof.
  induction l as [|c l IH]; simpl; [done|].
  fold (hasFilled l). fold (hasFilled (Py.replace EMPTY " " l)). rewrite IH.
  f_equal. destruct (Ascii.eqb_spec c EMPTY) as [->|]; done.
Qed.

(** Empty cells added after a row with a Filled cell are cut by the
    padding. *)
Lemma padTrimLine_trailing (r : line) (k : nat) :
  isRow r = true -> hasFilled r = true ->
  padTrimLine (r ++ replicate k BLANK) = padTrimLine r.
Proof.
  intros Hr Hf.
  assert (isRow (r ++ replicate k BLANK) = true) as Hr'
    by (by rewrite isRow_app, Hr, isRow_blanks).
  assert (hasFilled (r ++ replicate k BLANK) = true) as Hf'
    by (unfold hasFilled in *; by rewrite existsb_app, Hf).
  rewrite !padTrimLine_form by done. f_equal; [|f_equal].
  - do 2 f_equal. unfold leadingEmpty. apply leadRun_app_stop.
    rewrite hasFilled_not_empty in Hf by done.
    apply not_entirelyEmpty. by destruct (entirelyEmpty r).
  - rewrite <- !strip_row by done.
    apply strip_app_r, forallb_replicate, isspace_blank.
Qed.

End Trailing.

(** X19. Empty cells at the end of a starting line that has a Filled cell do
    not matter: with any number of '.' added after it, a validated line gives
    the same session, rows and label. *)
Theorem trailing_empty_ignored (l : line) (k fuel : nat) :
  validLine l = true -> hasFilled l = true ->
  playLine (l ++ replicate k EMPTY) fuel = playLine l fuel.
Proof.
  intros Hv Hf. unfold playLine.
  rewrite replace_app, replace_dots, padTrimLine_trailing; [done| |].
  - by apply validLine_row.
  - by rewrite hasFilled_replace.
Qed.

Lemma trailing_empty_ignored_witness :
  playLine (row "##.#" ++ replicate 5 EMPTY) 99 = playLine (row "##.#") 99.
Proof. apply (trailing_empty_ignored (row "##.#") 5 99); reflexivity. Defined.
